(** * Availability crawlers: a shallow embedding and its properties

    The repository holds two crawlers.  [NowonCrawler] (nowon-crawler.ts)
    queries a tabular API: a schedule descriptor plus a list of reserved
    entries.  [TennisCourtCrawler] (all-in-one.ts) queries an endpoint whose
    JSON wraps one markup fragment per court, and carries a [CircuitBreaker].

    Modelling conventions.
    - JavaScript numbers are modelled by [Z] where the code only uses whole
      numbers, and by [Q] where fractions occur (hour units, delays).  Both
      are exact for the values on which double arithmetic is exact: integers
      below 2^53 and dyadic fractions such as half hours.
    - Strings are byte strings.  Every string the code measures or pads is
      an ASCII rendering of a number, so byte length and UTF-16 length agree.
    - The network, the clock, the JSON parser, the markup parser and the
      collation order are collaborators of the code: they appear as section
      variables, class methods or explicit arguments.  Of the console output
      only the lines that tell how a (date, facility) pair went are kept. *)

From Stdlib Require Import ZArith QArith Qround String Ascii List Lia.
From Stdlib Require Import DecimalString DecimalZ Permutation Sorted OrdersEx.
From stdpp Require Import base list strings gmap.

Open Scope Z_scope.

(** ** JavaScript primitives used by both crawlers *)

Module JS.

(** [\d] of a JavaScript regular expression: an ASCII decimal digit. *)
Definition isDigit (a : ascii) : bool :=
  let n := nat_of_ascii a in (48 <=? n)%nat && (n <=? 57)%nat.

Definition digitValue (a : ascii) : Z := Z.of_nat (nat_of_ascii a) - 48.

Fixpoint allDigitChars (s : string) : bool :=
  match s with
  | EmptyString => true
  | String a s' => isDigit a && allDigitChars s'
  end.

(** [/^\d+$/.test(s)]. *)
Definition test_digits (s : string) : bool :=
  match s with
  | EmptyString => false
  | _ => allDigitChars s
  end.

(** Value of the longest prefix of decimal digits, with the number of
    characters read. *)
Fixpoint readDigits (s : string) (acc : Z) (n : nat) : Z * nat :=
  match s with
  | String a s' => if isDigit a then readDigits s' (10 * acc + digitValue a) (S n)
                   else (acc, n)
  | EmptyString => (acc, n)
  end.

Definition hexValue (a : ascii) : option Z :=
  let n := nat_of_ascii a in
  if isDigit a then Some (Z.of_nat n - 48)
  else if (97 <=? n)%nat && (n <=? 102)%nat then Some (Z.of_nat n - 87)
  else if (65 <=? n)%nat && (n <=? 70)%nat then Some (Z.of_nat n - 55)
  else None.

Fixpoint readHex (s : string) (acc : Z) (n : nat) : Z * nat :=
  match s with
  | String a s' => match hexValue a with
                   | Some d => readHex s' (16 * acc + d) (S n)
                   | None => (acc, n)
                   end
  | EmptyString => (acc, n)
  end.

Definition isSpace (a : ascii) : bool :=
  let n := nat_of_ascii a in
  (n =? 32)%nat || ((9 <=? n)%nat && (n <=? 13)%nat).

Fixpoint trimStart (s : string) : string :=
  match s with
  | String a s' => if isSpace a then trimStart s' else s
  | EmptyString => EmptyString
  end.

(** [parseInt(s)] with no radix: leading white space, an optional sign, a
    [0x] prefix for base sixteen, then the longest run of digits.  [None]
    stands for [NaN]. *)
Definition parseUnsigned (s : string) : option Z :=
  match s with
  | String "0" (String x s') =>
      if (x =? "x")%char || (x =? "X")%char then
        match readHex s' 0 0 with
        | (_, O) => None
        | (v, _) => Some v
        end
      else Some (fst (readDigits s 0 0))
  | _ => match readDigits s 0 0 with
         | (_, O) => None
         | (v, _) => Some v
         end
  end.

Definition parseInt (s : string) : option Z :=
  match trimStart s with
  | String "-" s' => Z.opp <$> parseUnsigned s'
  | String "+" s' => parseUnsigned s'
  | s' => parseUnsigned s'
  end.

(** [n.toString()] for a whole number: decimal digits, with a minus sign
    for a negative one. *)
Definition toString (n : Z) : string := NilZero.string_of_int (Z.to_int n).

(** [o || d] on an optional string: [undefined] and the empty string are
    falsy. *)
Definition orString (o : option string) (d : string) : string :=
  match o with
  | Some (String a s) => String a s
  | _ => d
  end.

(** [s.split(c)] for a one-character separator. *)
Fixpoint split (c : ascii) (s : string) : list string :=
  match s with
  | EmptyString => [EmptyString]
  | String a s' =>
      if (a =? c)%char then EmptyString :: split c s'
      else match split c s' with
           | p :: ps => String a p :: ps
           | [] => [String a EmptyString]
           end
  end.

(** [Array.from({ length: n }, (_, i) => f(i))]. *)
Definition arrayFrom {A : Type} (n : nat) (f : Z -> A) : list A :=
  map (fun i => f (Z.of_nat i)) (seq 0 n).

(** [xs.join(sep)]. *)
Fixpoint join (sep : string) (xs : list string) : string :=
  match xs with
  | [] => EmptyString
  | [x] => x
  | x :: rest => x +:+ sep +:+ join sep rest
  end.

(** [xs.sort(compare)].  The language fixes the result for a consistent
    comparator: the sorted arrangement in which elements that compare equal
    keep their order.  Insertion from the right computes it: an element
    moves right only past elements that must precede it. *)
Fixpoint insert {A : Type} (compare : A -> A -> Z) (x : A) (l : list A) : list A :=
  match l with
  | [] => [x]
  | y :: l' => if 0 <? compare x y then y :: insert compare x l'
               else x :: y :: l'
  end.

Fixpoint sort {A : Type} (compare : A -> A -> Z) (l : list A) : list A :=
  match l with
  | [] => []
  | x :: l' => insert compare x (sort compare l')
  end.

Fixpoint repeatChar (c : ascii) (n : nat) : string :=
  match n with
  | O => EmptyString
  | S n' => String c (repeatChar c n')
  end.

(** [s.padStart(n, c)] for a one-character pad string. *)
Definition padStart (n : nat) (c : ascii) (s : string) : string :=
  repeatChar c (n - String.length s) +:+ s.

(** [x.toString().padStart(2, '0')]. *)
Definition pad2 (n : Z) : string := padStart 2 "0" (toString n).

End JS.

(** ** The circuit breaker (all-in-one.ts, class CircuitBreaker) *)

Module Breaker.

Inductive CircuitState := CLOSED | OPEN | HALF_OPEN.

(** The instance fields.  Times are [Date.now()] readings in milliseconds;
    [recovery_timeout] is in seconds. *)
Record CircuitBreaker := mkBreaker {
  failure_threshold : Z;
  recovery_timeout : Z;
  failure_count : Z;
  last_failure_time : option Z;
  state : CircuitState
}.

(** [new CircuitBreaker(failure_threshold, recovery_timeout)]. *)
Definition new (threshold timeout : Z) : CircuitBreaker :=
  mkBreaker threshold timeout 0 None CLOSED.

Definition set_state (s : CircuitState) (b : CircuitBreaker) : CircuitBreaker :=
  mkBreaker (failure_threshold b) (recovery_timeout b) (failure_count b)
            (last_failure_time b) s.

(** Truthiness of [this.last_failure_time]: [null] and [0] are falsy. *)
Definition truthy_time (t : option Z) : bool :=
  match t with
  | Some v => negb (v =? 0)
  | None => false
  end.

(** [isAvailable()], with the clock reading as an argument.  It returns
    the answer together with the breaker after the call. *)
Definition isAvailable (now : Z) (b : CircuitBreaker) : bool * CircuitBreaker :=
  match state b with
  | CLOSED => (true, b)
  | OPEN =>
      if truthy_time (last_failure_time b)
         && (recovery_timeout b * 1000 <? now - default 0 (last_failure_time b))
      then (true, set_state HALF_OPEN b)
      else (false, b)
  | HALF_OPEN => (true, b)
  end.

Definition recordSuccess (b : CircuitBreaker) : CircuitBreaker :=
  mkBreaker (failure_threshold b) (recovery_timeout b) 0 (last_failure_time b) CLOSED.

Definition recordFailure (now : Z) (b : CircuitBreaker) : CircuitBreaker :=
  let n := failure_count b + 1 in
  mkBreaker (failure_threshold b) (recovery_timeout b) n (Some now)
            (if failure_threshold b <=? n then OPEN else state b).

(** A run of failures recorded one after the other, at the given clock
    readings. *)
Definition recordFailures (ts : list Z) (b : CircuitBreaker) : CircuitBreaker :=
  fold_left (fun b' t => recordFailure t b') ts b.

(** The breakers a crawler can hold: a fresh one, changed only through the
    three methods.  A clock reading is positive (milliseconds since 1970). *)
Inductive reachable (threshold timeout : Z) : CircuitBreaker -> Prop :=
  | reach_new : reachable threshold timeout (new threshold timeout)
  | reach_check now b :
      reachable threshold timeout b -> 0 < now ->
      reachable threshold timeout (snd (isAvailable now b))
  | reach_success b :
      reachable threshold timeout b ->
      reachable threshold timeout (recordSuccess b)
  | reach_failure now b :
      reachable threshold timeout b -> 0 < now ->
      reachable threshold timeout (recordFailure now b).

End Breaker.

(** ** Effects shared by the two crawlers *)

(** An asynchronous method is a function of the run state that either
    throws (left, with the error message) or returns (right). *)
Definition M (St A : Type) : Type := St -> (string + A) * St.

Definition ret {St A} (a : A) : M St A := fun st => (inr a, st).

Definition bind {St A B} (c : M St A) (k : A -> M St B) : M St B :=
  fun st => match c st with
            | (inr a, st') => k a st'
            | (inl e, st') => (inl e, st')
            end.

(** [try { c } catch (error) { h(error.message) }]. *)
Definition try_catch {St A} (c : M St A) (h : string -> M St A) : M St A :=
  fun st => match c st with
            | (inr a, st') => (inr a, st')
            | (inl e, st') => h e st'
            end.

Notation "x <- c ;; k" := (bind c (fun x => k))
  (at level 20, c at level 99, k at level 200, format "'[v' x  <-  c  ;;  '/' k ']'").

(** The [Date] objects of the host: [newDate y m d] is
    [new Date(y, m, d)] as a count of local days, [getDate] its day of the
    month, and [toISODate] is [toISOString().split('T')[0]] of its local
    midnight, which depends on the time zone of the host. *)
Class Calendar := {
  newDate : Z -> Z -> Z -> Z;
  getDate : Z -> Z;
  toISODate : Z -> string
}.

(** [a.localeCompare(b)] of the host: negative, zero or positive. *)
Class Collation := {
  localeCompare : string -> string -> Z
}.

(** The collation orders strings totally: it tells equal strings, and
    only those, equal; it is antisymmetric and transitive. *)
Class TotalCollation `{Collation} : Prop := {
  localeCompare_refl : forall x, localeCompare x x = 0;
  localeCompare_eq : forall x y, localeCompare x y = 0 -> x = y;
  localeCompare_antisym : forall x y, 0 < localeCompare x y -> localeCompare y x < 0;
  localeCompare_trans : forall x y z,
    localeCompare x y < 0 -> localeCompare y z < 0 -> localeCompare x z < 0
}.

(** ** The tabular crawler (nowon-crawler.ts, class NowonCrawler) *)

Module Nowon.
Import JS.

Record TimeListResponse := mkTimeList {
  useBeginHour : Q;
  hourUnit : Q;
  line : string
}.

(** [cseq?: number | string]. *)
Inductive cseqValue := CseqNumber (n : Z) | CseqString (s : string).

Record ReservedItem := mkReserved {
  cseq : option cseqValue;
  useTimeBegin : option string
}.

(** [list?: ReservedItem[]]; the field is named [list] in the source. *)
Record CheckReserveResponse := mkCheckReserve {
  list_ : option (list ReservedItem)
}.

Record CrawlRow := mkRow {
  date : string;
  court : string;
  startTime : string;
  endTime : string;
  status : string
}.

Record MonthResults := mkMonth {
  bul : list CrawlRow;
  ma : list CrawlRow;
  cho : list CrawlRow
}.

Definition reservedText : string := "예약불가".
Definition bookableText : string := "예약가능".

(** [`${r.cseq}`]. *)
Definition render_cseq (c : option cseqValue) : string :=
  match c with
  | None => "undefined"
  | Some (CseqNumber n) => toString n
  | Some (CseqString s) => s
  end.

(** The begin time of a reserved entry, as the loop normalises it. *)
Definition beginTimeOf (r : ReservedItem) : string :=
  let beginTime := orString (useTimeBegin r) "00:00" in
  if test_digits beginTime then
    match parseInt beginTime with
    | Some v => pad2 v +:+ ":00"
    | None => "NaN:00"
    end
  else beginTime.

Definition keyOf (r : ReservedItem) : string :=
  render_cseq (cseq r) +:+ "," +:+ beginTimeOf r.

(** [reservedSet] after the loop over [reserved.list || []]. *)
Definition reservedSetOf (reservedList : list ReservedItem) : gset string :=
  fold_left (fun acc r => {[ keyOf r ]} ∪ acc) reservedList ∅.

(** The court roster and the label prefix of a facility. *)
Definition courtsOf (cate2 : Z) : list string * string :=
  if cate2 =? 17 then
    (arrayFrom 4 (fun i => toString (i + 1) +:+ "코트@" +:+ toString (29 + i + 1)), "2")
  else if cate2 =? 15 then
    (arrayFrom 3 (fun i => toString (i + 1) +:+ "코트@" +:+ toString (17 + i + 1)), "")
  else
    (arrayFrom 9 (fun i => toString (i + 1) +:+ "코트@" +:+ toString (20 + i + 1)), "1").

(** [const [courtName, courtSeq] = c.split('@')]; a missing second part
    is [undefined] and renders as such in the key. *)
Definition courtParts (c : string) : string * string :=
  match split "@" c with
  | name :: sq :: _ => (name, sq)
  | [name] => (name, "undefined")
  | [] => ("undefined", "undefined")
  end.

Definition hourText (h : Q) : string := pad2 (Qfloor h) +:+ ":00".

(** [prefix ? `${prefix}${courtName}` : courtName]. *)
Definition courtNumOf (prefix courtName : string) : string :=
  match prefix with
  | EmptyString => courtName
  | _ => prefix +:+ courtName
  end.

(** The body of the inner loop: the row of one court for one interval. *)
Definition rowOf (pickDate prefix : string) (reservedSet : gset string)
    (startTxt endTxt c : string) : CrawlRow :=
  let '(courtName, courtSeq) := courtParts c in
  let key := courtSeq +:+ "," +:+ startTxt in
  let isReserved := bool_decide (key ∈ reservedSet) in
  let courtNum := courtNumOf prefix courtName in
  mkRow pickDate courtNum startTxt endTxt
        (if isReserved then reservedText else bookableText).

(** The outer loop, with [n] iterations left and the running start hour. *)
Fixpoint slotRows (n : nat) (startTime hourUnit : Q) (pickDate prefix : string)
    (reservedSet : gset string) (courts : list string) : list CrawlRow :=
  match n with
  | O => []
  | S n' =>
      let endTime := (startTime + hourUnit)%Q in
      let startTxt := hourText startTime in
      let endTxt := hourText endTime in
      map (rowOf pickDate prefix reservedSet startTxt endTxt) courts
        ++ slotRows n' (startTime + hourUnit)%Q hourUnit pickDate prefix
             reservedSet courts
  end.

(** The running start hour when interval [i] is reached: [i] additions of
    the hour unit to the first start hour. *)
Fixpoint hourAt (i : nat) (startTime hourUnit : Q) : Q :=
  match i with
  | O => startTime
  | S i' => hourAt i' (startTime + hourUnit)%Q hourUnit
  end.

(** [parseInt(result.line)] as a number of iterations: none for [NaN] or
    a number below one. *)
Definition lineCount (result : TimeListResponse) : nat :=
  match parseInt (line result) with
  | Some k => Z.to_nat k
  | None => O
  end.

(** [crawlAvailableTimes] after its two requests have been answered. *)
Definition rowsOfResponses (pickDate : string) (cate2 : Z)
    (result : TimeListResponse) (reserved : CheckReserveResponse) : list CrawlRow :=
  let reservedSet := reservedSetOf (default [] (list_ reserved)) in
  let '(courts, prefix) := courtsOf cate2 in
  slotRows (lineCount result) (useBeginHour result) (hourUnit result)
           pickDate prefix reservedSet courts.

(** What a run leaves behind: the requests sent, the sleeps, and the two
    per-pair lines of the console that tell how a pair ended. *)
Inductive event :=
  | EvTimeList (pickDate : string) (cate2 : Z)
  | EvReserve (pickDate : string) (cate2 : Z)
  | EvSleep (ms : Q)
  | EvOk (pickDate displayName : string) (rows : nat)
  | EvFail (pickDate displayName message : string).

(** The portal behind [this.session.post]: each answer is a thrown error
    (left) or the response data (right), and may change the portal. *)
Class Portal (W : Type) := {
  reserve_time_pick : string -> Z -> W -> (string + TimeListResponse) * W;
  api_reserve : string -> Z -> W -> (string + CheckReserveResponse) * W
}.

Record RunState (W : Type) := mkRun {
  world : W;
  trace : list event
}.
Arguments mkRun {W}.
Arguments world {W}.
Arguments trace {W}.

Section Crawler.
Context {W : Type} `{Portal W} `{Calendar}.

Definition emit (e : event) : M (RunState W) unit :=
  fun st => (inr tt, mkRun (world st) (trace st ++ [e])).

Definition request {A} (f : W -> (string + A) * W) : M (RunState W) A :=
  fun st => let '(r, w) := f (world st) in (r, mkRun w (trace st)).

Definition sleep (ms : Q) : M (RunState W) unit := emit (EvSleep ms).

Definition getTimeList (pickDate : string) (cate2 : Z)
    : M (RunState W) TimeListResponse :=
  _ <- emit (EvTimeList pickDate cate2) ;;
  request (reserve_time_pick pickDate cate2).

Definition checkReserve (pickDate : string) (cate2 : Z)
    : M (RunState W) CheckReserveResponse :=
  try_catch
    (_ <- emit (EvReserve pickDate cate2) ;;
     request (api_reserve pickDate cate2))
    (fun _ => ret (mkCheckReserve None)).

Definition crawlAvailableTimes (pickDate : string) (cate2 : Z)
    : M (RunState W) (list CrawlRow) :=
  result <- getTimeList pickDate cate2 ;;
  reserved <- checkReserve pickDate cate2 ;;
  ret (rowsOfResponses pickDate cate2 result reserved).

Inductive facilityKey := Kbul | Kma | Kcho.

(** [allResults[name].push(...rows)]. *)
Definition push (name : facilityKey) (rows : list CrawlRow) (r : MonthResults)
    : MonthResults :=
  match name with
  | Kbul => mkMonth (bul r ++ rows) (ma r) (cho r)
  | Kma => mkMonth (bul r) (ma r ++ rows) (cho r)
  | Kcho => mkMonth (bul r) (ma r) (cho r ++ rows)
  end.

Definition facilities : list (Z * facilityKey * string) :=
  [(15, Kbul, "불암산"); (16, Kma, "마들"); (17, Kcho, "초안산")].

(** The body of the loop over the facilities: one (date, facility) pair. *)
Definition crawlPair (delay : Q) (pickDate : string)
    (f : Z * facilityKey * string) (allResults : MonthResults)
    : M (RunState W) MonthResults :=
  let '(cate2Val, name, displayName) := f in
  try_catch
    (rows <- crawlAvailableTimes pickDate cate2Val ;;
     _ <- emit (EvOk pickDate displayName (length rows)) ;;
     _ <- (if Qle_bool delay 0 then ret tt else sleep (delay * 1000)%Q) ;;
     ret (push name rows allResults))
    (fun message =>
       _ <- emit (EvFail pickDate displayName message) ;;
       ret allResults).

Fixpoint crawlPairs (delay : Q) (pairs : list (string * (Z * facilityKey * string)))
    (allResults : MonthResults) : M (RunState W) MonthResults :=
  match pairs with
  | [] => ret allResults
  | (pickDate, f) :: rest =>
      allResults' <- crawlPair delay pickDate f allResults ;;
      crawlPairs delay rest allResults'
  end.

(** The days the [while (currentDate <= lastDay)] loop visits, one step
    of [setDate(getDate() + 1)] apart. *)
Definition daysOf (firstDay lastDay : Z) : list Z :=
  seqZ firstDay (lastDay - firstDay + 1).

(** The (date, facility) pairs in the order the two loops reach them. *)
Definition pairsOf (firstDay lastDay : Z)
    : list (string * (Z * facilityKey * string)) :=
  flat_map (fun d => map (fun f => (toISODate d, f)) facilities)
           (daysOf firstDay lastDay).

Definition crawlMonth (year month : Z) (delay : Q) : M (RunState W) MonthResults :=
  let firstDay := newDate year (month - 1) 1 in
  let lastDay := newDate year month 0 in
  crawlPairs delay (pairsOf firstDay lastDay) (mkMonth [] [] []).

End Crawler.

(** *** Export (generateCSV, generateAvailableOnlyCSV) *)

(** [{ ...r, facility }]: a row with the display name of its facility. *)
Record ExportRow := mkExport {
  row : CrawlRow;
  facility : string
}.

Section Csv.
Context `{Collation}.

(** The comparator handed to [allData.sort]. *)
Definition compareRows (a b : ExportRow) : Z :=
  if negb (date (row a) =? date (row b))%string then
    localeCompare (date (row a)) (date (row b))
  else if negb (facility a =? facility b)%string then
    localeCompare (facility a) (facility b)
  else if negb (court (row a) =? court (row b))%string then
    localeCompare (court (row a)) (court (row b))
  else localeCompare (startTime (row a)) (startTime (row b)).

Definition tagAll (results : MonthResults) : list ExportRow :=
  map (fun r => mkExport r "불암산") (bul results)
    ++ map (fun r => mkExport r "마들") (ma results)
    ++ map (fun r => mkExport r "초안산") (cho results).

(** [allData] of [generateCSV] after the sort. *)
Definition allData (results : MonthResults) : list ExportRow :=
  sort compareRows (tagAll results).

(** [allData] of [generateAvailableOnlyCSV] after the sort. *)
Definition availableData (results : MonthResults) : list ExportRow :=
  sort compareRows
       (filter (fun r => status (row r) = bookableText) (tagAll results)).

Definition generateCSV (results : MonthResults) : string :=
  let headers := ["날짜"; "코트"; "시작시간"; "종료시간"; "상태"] in
  join (String "010" EmptyString)
    (join "," headers ::
     map (fun r => join "," [date (row r); facility r +:+ " " +:+ court (row r);
                             startTime (row r); endTime (row r); status (row r)])
         (allData results)).

Definition generateAvailableOnlyCSV (results : MonthResults) : string :=
  let headers := ["날짜"; "코트"; "시작시간"; "종료시간"] in
  join (String "010" EmptyString)
    (join "," headers ::
     map (fun r => join "," [date (row r); facility r +:+ " " +:+ court (row r);
                             startTime (row r); endTime (row r)])
         (availableData results)).

End Csv.

End Nowon.

(** ** The embedded-markup crawler (all-in-one.ts, class TennisCourtCrawler) *)

Module Tennis.
Import JS.

#[local] Unset Elimination Schemes.

(** A value of type [any]: what [JSON.parse] or the HTTP client hands over.
    Numbers are whole; the fields of an object have distinct names. *)
Inductive json :=
  | JNull
  | JBool (b : bool)
  | JNumber (n : Z)
  | JString (s : string)
  | JArray (items : list json)
  | JObject (fields : list (string * json)).

#[local] Set Elimination Schemes.

Fixpoint field (name : string) (fields : list (string * json)) : option json :=
  match fields with
  | [] => None
  | (k, v) :: rest => if (k =? name)%string then Some v else field name rest
  end.

(** [v.name]: reading a property of [null] throws a TypeError; a value
    without that property gives [undefined] ([None]). *)
Definition getProp (v : json) (name : string) : string + option json :=
  match v with
  | JNull => inl ("Cannot read properties of null (reading '" +:+ name +:+ "')")
  | JObject fields => inr (field name fields)
  | _ => inr None
  end.

Definition truthy (v : option json) : bool :=
  match v with
  | None | Some JNull => false
  | Some (JBool b) => b
  | Some (JNumber n) => negb (n =? 0)
  | Some (JString s) => negb (s =? "")%string
  | Some (JArray _) | Some (JObject _) => true
  end.

(** [v || d]. *)
Definition orJson (v : option json) (d : json) : json :=
  if truthy v then default d v else d.

Module TimeSlot.
Record t := mk {
  time : string;
  available : bool;
  price : string;
  status : string
}.
End TimeSlot.

Module CourtData.
Record t := mk {
  court_name : json;
  court_code : json;
  place_code : json;
  event_code : json;
  time_slots : list TimeSlot.t;
  available_slots : nat;
  total_slots : nat;
  has_availability : bool
}.
End CourtData.

(** The optional fields [total_count], [p_count] and [response_time] of
    the interface are never written and are left out. *)
Module AvailabilityResult.
Record t := mk {
  date : string;
  formatted_date : option string;
  status : string;
  error : option string;
  courts : list CourtData.t;
  total_available_slots : option nat;
  has_availability : option bool
}.
End AvailabilityResult.

(** One [input[type="checkbox"]] element: what [attr('value')] and
    [attr('disabled')] return for it ([None] for [undefined]). *)
Record Checkbox := mkCheckbox {
  attr_value : option string;
  attr_disabled : option string
}.

(** The markup library: [$('input[type="checkbox"]')] of
    [cheerio.load(htmlContent)] in document order.  A string is always
    parsed; for any other truthy [htmlx] the library may throw. *)
Class Cheerio := {
  checkboxes : string -> list Checkbox;
  checkboxes_of_value : json -> string + list Checkbox
}.

(** [JSON.parse]: the SyntaxError message (left) or the value. *)
Class JsonParser := {
  JSON_parse : string -> string + json
}.

(** A match of [(\d{1,2}):(\d{2})] starting at the first character: the
    two groups.  Two hour digits are tried before one. *)
Definition matchAt (s : string) : option (string * string) :=
  match s with
  | String c1 (String c2 (String c3 (String c4 rest))) =>
      let two := match rest with
                 | String c5 _ =>
                     isDigit c1 && isDigit c2 && (c3 =? ":")%char
                       && isDigit c4 && isDigit c5
                 | EmptyString => false
                 end in
      if two then
        match rest with
        | String c5 _ =>
            Some (String c1 (String c2 EmptyString), String c4 (String c5 EmptyString))
        | EmptyString => None
        end
      else if isDigit c1 && (c2 =? ":")%char && isDigit c3 && isDigit c4 then
        Some (String c1 EmptyString, String c3 (String c4 EmptyString))
      else None
  | _ => None
  end.

(** [value.match(/(\d{1,2}):(\d{2})/)]: the leftmost match. *)
Fixpoint matchTime (s : string) : option (string * string) :=
  match matchAt s with
  | Some r => Some r
  | None => match s with
            | String _ s' => matchTime s'
            | EmptyString => None
            end
  end.

(** [`${hour.toString().padStart(2, '0')}`], [NaN] included. *)
Definition hourLabel (hour : option Z) : string :=
  match hour with
  | Some h => pad2 h
  | None => "NaN"
  end.

(** The callback of [.each]: the slot a control contributes, if any. *)
Definition slotOf (checkbox : Checkbox) : option TimeSlot.t :=
  let value := orString (attr_value checkbox) "" in
  match matchTime value with
  | Some (h, minute) =>
      let hour := parseInt h in
      if bool_decide (hour = Some 6) && (minute =? "00")%string then None
      else
        let hour' := match hour with
                     | Some v => if 7 <=? v then Some (v - 1) else Some v
                     | None => None
                     end in
        let isAvailable := match attr_disabled checkbox with
                           | Some (String _ _) => false
                           | _ => true
                           end in
        Some (TimeSlot.mk (hourLabel hour' +:+ ":" +:+ minute) isAvailable ""
                          (if isAvailable then "available" else "disabled"))
  | None => None
  end.

Definition slotsOfCheckboxes (cs : list Checkbox) : list TimeSlot.t :=
  omap slotOf cs.

(** [s.slice(a, b)] for [0 <= a <= b]. *)
Definition slice (a b : nat) (s : string) : string := substring a (b - a) s.

(** [responseText.replace(/^\uFEFF/, '')]: the byte order mark, three bytes
    in UTF-8, is taken off the front. *)
Definition stripBOM (s : string) : string :=
  match s with
  | String "239" (String "187" (String "191" s')) => s'
  | _ => s
  end.

Section Parser.
Context `{Cheerio} `{JsonParser}.

Definition parseTimeSlots (htmlContent : string) : list TimeSlot.t :=
  slotsOfCheckboxes (checkboxes htmlContent).

(** The callback of [playData.forEach]: the court of block [i]. *)
Definition courtOf (i : nat) (courtInfo : json) : string + CourtData.t :=
  match getProp courtInfo "play_name", getProp courtInfo "play_code",
        getProp courtInfo "place_code", getProp courtInfo "event_code",
        getProp courtInfo "htmlx" with
  | inr name, inr code, inr place, inr ev, inr htmlx =>
      let slots :=
        if truthy htmlx then
          match htmlx with
          | Some (JString s) => inr (parseTimeSlots s)
          | Some v => match checkboxes_of_value v with
                      | inr cs => inr (slotsOfCheckboxes cs)
                      | inl e => inl e
                      end
          | None => inr []
          end
        else inr [] in
      match slots with
      | inr time_slots =>
          let available_slots := length (filter (fun s => TimeSlot.available s = true) time_slots) in
          inr (CourtData.mk
                 (orJson name (JString ("코트" +:+ toString (Z.of_nat i + 1))))
                 (orJson code (JString "")) (orJson place (JString ""))
                 (orJson ev (JString "")) time_slots available_slots
                 (length time_slots) (0 <? available_slots)%nat)
      | inl e => inl e
      end
  | inl e, _, _, _, _ | _, inl e, _, _, _ | _, _, inl e, _, _
  | _, _, _, inl e, _ | _, _, _, _, inl e => inl e
  end.

(** The [forEach] loop from block [i] on; a throwing block ends it. *)
Fixpoint courtsFrom (i : nat) (blocks : list json) : string + list CourtData.t :=
  match blocks with
  | [] => inr []
  | b :: rest =>
      match courtOf i b with
      | inl e => inl e
      | inr c => match courtsFrom (S i) rest with
                 | inl e => inl e
                 | inr cs => inr (c :: cs)
                 end
      end
  end.

(** [playData] before the loop: [[]] unless [data.play_name] is truthy, in
    which case it is that value, parsed first when it is a string; a string
    that does not parse leaves [[]]. *)
Definition playDataOf (play_name : option json) : json :=
  if truthy play_name then
    match play_name with
    | Some (JString s) => match JSON_parse s with
                          | inr v => v
                          | inl _ => JArray []
                          end
    | Some v => v
    | None => JArray []
    end
  else JArray [].

Definition parseAvailabilityData (dateStr : string) (data : json)
    : string + AvailabilityResult.t :=
  match getProp data "play_name" with
  | inl e => inl e
  | inr play_name =>
      match playDataOf play_name with
      | JArray blocks =>
          match courtsFrom 0 blocks with
          | inl e => inl e
          | inr courts =>
              let total := foldl (fun sum c => (sum + CourtData.available_slots c)%nat)
                                 0%nat courts in
              inr (AvailabilityResult.mk dateStr
                     (Some (slice 0 4 dateStr +:+ "년 " +:+ slice 4 6 dateStr
                              +:+ "월 " +:+ slice 6 8 dateStr +:+ "일"))
                     "success" None courts (Some total) (Some (0 <? total)%nat))
          end
      | JNull => inl "Cannot read properties of null (reading 'forEach')"
      | _ => inl "playData.forEach is not a function"
      end
  end.

End Parser.

(** What a run leaves behind: the requests sent, the sleeps, and the
    progress line printed when a date is taken up. *)
Inductive event :=
  | EvGetIndex
  | EvPostAjax (rdate : string)
  | EvSleep (ms : Q)
  | EvProgress (i n : nat) (dateStr : string).

(** The portal behind [this.session]: the index page and the list
    endpoint, each answering with a thrown error or with [response.data]. *)
Class Portal (W : Type) := {
  get_index : W -> (string + unit) * W;
  post_list : string -> W -> (string + json) * W
}.

(** The crawler object during a run, with the portal it talks to. *)
Record Crawler (W : Type) := mkCrawler {
  world : W;
  circuitBreaker : Breaker.CircuitBreaker;
  trace : list event
}.
Arguments mkCrawler {W}.
Arguments world {W}.
Arguments circuitBreaker {W}.
Arguments trace {W}.

(** [new TennisCourtCrawler()]. *)
Definition newCrawler {W : Type} (w : W) : Crawler W :=
  mkCrawler w (Breaker.new 5 600) [].

Section Crawler.
Context {W : Type} `{Portal W} `{Cheerio} `{JsonParser} `{Calendar}.

Definition emit (e : event) : M (Crawler W) unit :=
  fun st => (inr tt, mkCrawler (world st) (circuitBreaker st) (trace st ++ [e])).

Definition request {A} (f : W -> (string + A) * W) : M (Crawler W) A :=
  fun st => let '(r, w) := f (world st) in
            (r, mkCrawler w (circuitBreaker st) (trace st)).

Definition lift {A} (r : string + A) : M (Crawler W) A := fun st => (r, st).

Definition sleep (ms : Q) : M (Crawler W) unit := emit (EvSleep ms).

Definition errorResult (dateStr message : string) : AvailabilityResult.t :=
  AvailabilityResult.mk dateStr None "error" (Some message) [] None None.

Definition checkAvailability (dateStr : string) : M (Crawler W) AvailabilityResult.t :=
  try_catch
    (_ <- emit EvGetIndex ;;
     _ <- request get_index ;;
     _ <- emit (EvPostAjax dateStr) ;;
     data <- request (post_list dateStr) ;;
     let responseText := match data with
                         | JString s => JString (stripBOM s)
                         | v => v
                         end in
     result <- lift (match responseText with
                     | JString s => JSON_parse s
                     | v => inr v
                     end) ;;
     lift (parseAvailabilityData dateStr result))
    (fun message => ret (errorResult dateStr message)).

Definition getMonthDates (year month : Z) : list string :=
  let lastDay := getDate (newDate year month 0) in
  map (fun day => toString year +:+ pad2 month +:+ pad2 day)
      (seqZ 1 lastDay).

(** The loop of [crawlMonth] from index [i] on, over the dates left. *)
Fixpoint crawlDates (delay : Q) (n i : nat) (dates : list string)
    (results : list AvailabilityResult.t) : M (Crawler W) (list AvailabilityResult.t) :=
  match dates with
  | [] => ret results
  | d :: rest =>
      _ <- emit (EvProgress (i + 1) n d) ;;
      result <- checkAvailability d ;;
      _ <- (if (i <? n - 1)%nat then sleep (delay * 1000)%Q else ret tt) ;;
      crawlDates delay n (S i) rest (results ++ [result])
  end.

Definition crawlMonth (year month : Z) (delay : Q)
    : M (Crawler W) (list AvailabilityResult.t) :=
  let dates := getMonthDates year month in
  crawlDates delay (length dates) 0 dates [].

End Crawler.

End Tennis.


(** ** What is read off a run *)

(** [x1; sep; x2; sep; ...; xn]: a separator between neighbours only. *)
Fixpoint intersperse {A : Type} (sep : A) (l : list A) : list A :=
  match l with
  | [] => []
  | [x] => [x]
  | x :: rest => x :: sep :: intersperse sep rest
  end.

Module JSRead.

(** Reading a rendered number back. *)
Definition decode (s : string) : option Z :=
  option_map Z.of_int (NilZero.int_of_string s).

End JSRead.

Module BreakerRun.
Import Breaker.

(** What holds of every breaker a crawler can hold: the settings never
    change, the count is not negative, a recorded time is a clock reading,
    and a breaker that is not closed has reached its threshold and carries
    the time of its last failure. *)
Record invariant (threshold timeout : Z) (b : CircuitBreaker) : Prop := {
  inv_threshold : failure_threshold b = threshold;
  inv_timeout : recovery_timeout b = timeout;
  inv_count : 0 <= failure_count b;
  inv_time : forall t, last_failure_time b = Some t -> 0 < t;
  inv_tripped : state b <> CLOSED ->
                threshold <= failure_count b /\ is_Some (last_failure_time b)
}.

End BreakerRun.

Module NowonRows.
Import Nowon.


End NowonRows.

Module TennisParse.
Import JS Tennis.

(** The groups of a match: one or two hour digits and two minute digits. *)
Definition timeGroups (h m : string) : Prop :=
  (exists m1 m2, m = String m1 (String m2 EmptyString)
                 /\ isDigit m1 = true /\ isDigit m2 = true)
  /\ ((exists h1, h = String h1 EmptyString /\ isDigit h1 = true)
      \/ (exists h1 h2, h = String h1 (String h2 EmptyString)
                        /\ isDigit h1 = true /\ isDigit h2 = true)).

End TennisParse.

Module NowonExport.
Import Nowon.

(** The four sort keys of an exported row, most significant first. *)
Definition keysOf (r : ExportRow) : list string :=
  [date (row r); facility r; court (row r); startTime (row r)].

Section Order.
Context `{Collation}.

(** The lexicographic order on key lists of one length: the first key
    that differs decides, by the collation. *)
Fixpoint lexLe (xs ys : list string) : Prop :=
  match xs, ys with
  | x :: xs', y :: ys' => localeCompare x y < 0 \/ (x = y /\ lexLe xs' ys')
  | _, _ => True
  end.

(** The comparator on key lists: the first key that differs decides. *)
Fixpoint lexCompare (xs ys : list string) : Z :=
  match xs, ys with
  | x :: xs', y :: ys' =>
      if negb (x =? y)%string then localeCompare x y else lexCompare xs' ys'
  | _, _ => 0
  end.

(** Date ascending, then facility name, then court label, then start. *)
Definition rowLe (a b : ExportRow) : Prop := lexLe (keysOf a) (keysOf b).

End Order.

End NowonExport.

Module NowonRun.
Import Nowon.

(** The line of the console that ends a pair. *)
Definition isOutcome (e : event) : bool :=
  match e with
  | EvOk _ _ _ | EvFail _ _ _ => true
  | _ => false
  end.

Definition isSleep (e : event) : bool :=
  match e with
  | EvSleep _ => true
  | _ => false
  end.

Definition isTimeList (e : event) : bool :=
  match e with
  | EvTimeList _ _ => true
  | _ => false
  end.

(** The outcomes of a run, in order, and the outcomes with the sleeps. *)
Definition outcomes (tr : list event) : list event := List.filter isOutcome tr.

Definition pacing (tr : list event) : list event :=
  List.filter (fun e => isOutcome e || isSleep e) tr.

Definition attempts (tr : list event) : list event := List.filter isTimeList tr.

(** The date and the display name an outcome line speaks of. *)
Definition outcomePair (e : event) : option (string * string) :=
  match e with
  | EvOk d name _ | EvFail d name _ => Some (d, name)
  | _ => None
  end.

(** The number of rows the success lines of a run announce. *)
Definition okRows (tr : list event) : nat :=
  fold_right (fun e n => match e with
                         | EvOk _ _ k => (k + n)%nat
                         | _ => n
                         end) O tr.

Definition totalRows (r : MonthResults) : nat :=
  (length (bul r) + length (ma r) + length (cho r))%nat.

(** An outcome together with the sleep that follows it: one after a
    success when the delay is positive, none after a failure. *)
Definition withSleep (delay : Q) (e : event) : list event :=
  match e with
  | EvOk _ _ _ => if Qle_bool delay 0 then [e] else [e; EvSleep (delay * 1000)%Q]
  | _ => [e]
  end.

End NowonRun.

Module TennisRun.
Import Tennis.


Definition isRequest (e : event) : bool :=
  match e with
  | EvGetIndex | EvPostAjax _ => true
  | _ => false
  end.


(** The requests of a run, and its progress lines with the sleeps. *)
Definition requests (tr : list event) : list event := List.filter isRequest tr.

Definition pacing (tr : list event) : list event :=
  List.filter (fun e => negb (isRequest e)) tr.

(** The requests for the index page: each attempt starts with one. *)
Definition indexRequests (tr : list event) : list event :=
  List.filter (fun e => match e with
                        | EvGetIndex => true
                        | _ => false
                        end) tr.


End TennisRun.

(** ** More of the two crawlers *)

Module BreakerOps.
Import Breaker.

(** What a caller can do to a breaker short of recording a success. *)
Inductive op :=
  | Check (now : Z)
  | Fail (now : Z).

Definition apply (o : op) (b : CircuitBreaker) : CircuitBreaker :=
  match o with
  | Check now => snd (isAvailable now b)
  | Fail now => recordFailure now b
  end.

Definition applyAll (ops : list op) (b : CircuitBreaker) : CircuitBreaker :=
  fold_left (fun b' o => apply o b') ops b.

End BreakerOps.

Module NowonStats.
Import JS Nowon.

(** Whether a character occurs in a string. *)
Fixpoint hasChar (c : ascii) (s : string) : bool :=
  match s with
  | EmptyString => false
  | String a s' => (a =? c)%char || hasChar c s'
  end.

(** A row none of whose fields holds a line break. *)
Definition oneLine (r : CrawlRow) : Prop :=
  hasChar "010" (date r) = false /\ hasChar "010" (court r) = false
  /\ hasChar "010" (startTime r) = false /\ hasChar "010" (endTime r) = false
  /\ hasChar "010" (status r) = false.


(** A row to export whose line holds no line break. *)
Definition exportsOneLine (r : ExportRow) : Prop :=
  oneLine (Nowon.row r) /\ hasChar "010" (Nowon.facility r) = false.

(** The statistics [saveResults] prints after writing the files. *)
Definition totalSlots (results : MonthResults) : nat :=
  (length (bul results) + length (ma results) + length (cho results))%nat.

Definition availableSlots (results : MonthResults) : nat :=
  length (filter (fun r => status r = bookableText)
                 (bul results ++ ma results ++ cho results)).

Definition unavailableSlots (results : MonthResults) : nat :=
  (totalSlots results - availableSlots results)%nat.





End NowonStats.

Module TennisTotals.
Import Tennis.

(** What every court of a result satisfies: its counts are those of its
    slot list. *)
Definition countsItsSlots (c : CourtData.t) : Prop :=
  CourtData.total_slots c = length (CourtData.time_slots c)
  /\ CourtData.available_slots c
     = length (filter (fun s => TimeSlot.available s = true) (CourtData.time_slots c))
  /\ (CourtData.available_slots c <= CourtData.total_slots c)%nat
  /\ (CourtData.has_availability c = true
      <-> exists s, s ∈ CourtData.time_slots c /\ TimeSlot.available s = true).

(** The byte order mark in UTF-8. *)
Definition byteOrderMark : string := String "239" (String "187" (String "191" EmptyString)).

End TennisTotals.

(** ** The programs around the crawlers (the two [main] functions) *)

Module NowonProgram.
Import JS Nowon NowonStats.

(** [haystack.includes(needle)] on strings. *)
Fixpoint includes (needle haystack : string) : bool :=
  String.prefix needle haystack
  || match haystack with
     | EmptyString => false
     | String _ rest => includes needle rest
     end.

(** The answer to the login request: [resp.data] and [resp.status]. *)
Record LoginReply := mkReply {
  data : Tennis.json;
  status : Z
}.

(** What is handed to [fs.writeFileSync]: the results, to be rendered by
    [JSON.stringify], or a text. *)
Inductive content :=
  | Json (results : MonthResults)
  | Text (text : string).

(** What the program does besides crawling: the login request, the
    directory it makes, the files it sets out to write, and the
    statistics it prints. *)
Inductive note :=
  | NoteLogin (username : string)
  | NoteMkdir (path : string)
  | NoteWrite (path : string) (c : content)
  | NoteStats (total available unavailable : nat).

(** The login endpoint and the file system of the host. *)
Class Site (W : Type) := {
  loginAction : string -> string -> W -> (string + LoginReply) * W;
  existsSync : string -> W -> bool;
  mkdirSync : string -> W -> (string + unit) * W;
  writeFileSync : string -> content -> W -> (string + unit) * W
}.

Record Program (W : Type) := mkProgram {
  run : RunState W;
  notes : list note
}.
Arguments mkProgram {W}.
Arguments run {W}.
Arguments notes {W}.

(** [v === false]. *)
Definition isFalse (v : option Tennis.json) : bool :=
  match v with
  | Some (Tennis.JBool false) => true
  | _ => false
  end.

(** [message?.includes("실패")]: nothing for a missing message, the
    substring test for a text, the membership test for an array, and a
    TypeError for any other value, which has no [includes]. *)
Definition saysFailed (message : option Tennis.json) : string + bool :=
  match message with
  | None | Some Tennis.JNull => inr false
  | Some (Tennis.JString s) => inr (includes "실패" s)
  | Some (Tennis.JArray items) =>
      inr (existsb (fun v => match v with
                             | Tennis.JString s => (s =? "실패")%string
                             | _ => false
                             end) items)
  | Some _ => inl "resp.data.message?.includes is not a function"
  end.

(** The two tests of [login] on [resp.data]: whether the answer says the
    login was refused. *)
Definition refused (d : Tennis.json) : string + bool :=
  match d with
  | Tennis.JString s => inr (includes "로그인 실패" s || includes "fail" s)
  | Tennis.JNull => inl "Cannot read properties of null (reading 'success')"
  | Tennis.JArray _ | Tennis.JObject _ =>
      let prop name := match Tennis.getProp d name with
                       | inr v => v
                       | inl _ => None
                       end in
      if isFalse (prop "success") || isFalse (prop "result")
         || Tennis.truthy (prop "error")
      then inr true
      else saysFailed (prop "message")
  | _ => inr false
  end.

Section Program.
Context {W : Type} `{Portal W} `{Calendar} `{Collation} `{Site W}.

Definition noteDown (n : note) : M (Program W) unit :=
  fun s => (inr tt, mkProgram (run s) (notes s ++ [n])).

(** A method of the crawler, called by the program. *)
Definition onRun {A} (c : M (RunState W) A) : M (Program W) A :=
  fun s => let '(r, st) := c (run s) in (r, mkProgram st (notes s)).

Definition site {A} (f : W -> (string + A) * W) : M (Program W) A :=
  fun s => let '(r, w) := f (world (run s)) in
           (r, mkProgram (mkRun w (trace (run s))) (notes s)).

Definition login (username password : string) : M (Program W) bool :=
  try_catch
    (_ <- noteDown (NoteLogin username) ;;
     resp <- site (loginAction username password) ;;
     failed <- (fun s => (refused (data resp), s)) ;;
     if (failed : bool) then ret false
     else if (status resp =? 200) || (status resp =? 302) then ret true
     else ret false)
    (fun _ => ret false).

Definition write (path : string) (c : content) : M (Program W) unit :=
  _ <- noteDown (NoteWrite path c) ;;
  site (writeFileSync path c).

Definition saveResults (results : MonthResults) (outputDir : string)
    : M (Program W) unit :=
  present <- (fun s => (inr (existsSync outputDir (world (run s))), s)) ;;
  _ <- (if negb present
        then (_ <- noteDown (NoteMkdir outputDir) ;; site (mkdirSync outputDir))
        else ret tt) ;;
  _ <- write (outputDir +:+ "/nowon_results.json") (Json results) ;;
  _ <- write (outputDir +:+ "/nowon_all.csv") (Text (generateCSV results)) ;;
  _ <- write (outputDir +:+ "/nowon_available.csv")
             (Text (generateAvailableOnlyCSV results)) ;;
  noteDown (NoteStats (totalSlots results) (availableSlots results)
                      (unavailableSlots results)).

(** [main], with the account as its arguments. *)
Definition main (username password : string) : M (Program W) unit :=
  loginSuccess <- login username password ;;
  if negb loginSuccess then ret tt
  else
    testResults <- onRun (crawlAvailableTimes "2025-10-15" 15) ;;
    results <- onRun (crawlMonth 2025 10 (1 # 2)) ;;
    saveResults results "./output".

End Program.

End NowonProgram.

Module TennisProgram.
Import JS Tennis.

(** What the program does besides querying: the two requests to the
    sign-on page, and the file it sets out to write. *)
Inductive note :=
  | NoteGetLogin
  | NotePostLogin (user_id : string)
  | NoteWrite (path : string) (results : list AvailabilityResult.t).

(** The sign-on page and the file system of the host. *)
Class Site (W : Type) := {
  get_login : W -> (string + unit) * W;
  post_login : string -> string -> W -> (string + unit) * W;
  writeFileSync : string -> list AvailabilityResult.t -> W -> (string + unit) * W
}.

Record Program (W : Type) := mkProgram {
  crawler : Crawler W;
  loggedIn : bool;
  notes : list note
}.
Arguments mkProgram {W}.
Arguments crawler {W}.
Arguments loggedIn {W}.
Arguments notes {W}.

Section Program.
Context {W : Type} `{Portal W} `{Cheerio} `{JsonParser} `{Calendar} `{Site W}.

Definition noteDown (n : note) : M (Program W) unit :=
  fun s => (inr tt, mkProgram (crawler s) (loggedIn s) (notes s ++ [n])).

(** A method of the crawler that only uses its session. *)
Definition onCrawler {A} (c : M (Crawler W) A) : M (Program W) A :=
  fun s => let '(r, st) := c (crawler s) in (r, mkProgram st (loggedIn s) (notes s)).

Definition site {A} (f : W -> (string + A) * W) : M (Program W) A :=
  onCrawler (request f).

Definition login (username password : string) : M (Program W) bool :=
  try_catch
    (_ <- noteDown NoteGetLogin ;;
     _ <- site get_login ;;
     _ <- noteDown (NotePostLogin username) ;;
     _ <- site (post_login username password) ;;
     _ <- onCrawler (emit EvGetIndex) ;;
     _ <- onCrawler (request get_index) ;;
     _ <- (fun s => (inr tt, mkProgram (crawler s) true (notes s))) ;;
     ret true)
    (fun _ => ret false).

(** [main], with the account as its arguments. *)
Definition main (username password : string) : M (Program W) unit :=
  loginSuccess <- login username password ;;
  if negb loginSuccess then ret tt
  else
    result <- onCrawler (checkAvailability "20251015") ;;
    results <- onCrawler (crawlMonth 2025 10 (1 # 2)) ;;
    _ <- noteDown (NoteWrite "results.json" results) ;;
    site (writeFileSync "results.json" results).

End Program.

End TennisProgram.

(** ** Sample inputs *)

Module Samples.
Import Nowon.

(** A schedule of two one-hour intervals from 8 o'clock. *)
Definition twoSlots : TimeListResponse := mkTimeList 8 1 "2".



(** Court 18 is taken at 8 o'clock; the hour is sent as a bare number. *)
Definition court18at8 : CheckReserveResponse :=
  mkCheckReserve (Some [mkReserved (Some (CseqNumber 18)) (Some "8")]).


Definition firstRow : CrawlRow :=
  mkRow "2025-10-15" "1코트" "08:00" "09:00" "예약불가".

(** *** A host on universal time *)

(** Days since 1 January 1970 of a civil date, and back. *)
Definition daysFromCivil (y m d : Z) : Z :=
  let y' := if m <=? 2 then y - 1 else y in
  let era := y' / 400 in
  let yoe := y' - era * 400 in
  let mp := if 2 <? m then m - 3 else m + 9 in
  let doy := (153 * mp + 2) / 5 + d - 1 in
  let doe := yoe * 365 + yoe / 4 - yoe / 100 + doy in
  era * 146097 + doe - 719468.

Definition civilFromDays (z : Z) : Z * Z * Z :=
  let z' := z + 719468 in
  let era := z' / 146097 in
  let doe := z' - era * 146097 in
  let yoe := (doe - doe / 1460 + doe / 36524 - doe / 146096) / 365 in
  let doy := doe - (365 * yoe + yoe / 4 - yoe / 100) in
  let mp := (5 * doy + 2) / 153 in
  let d := doy - (153 * mp + 2) / 5 + 1 in
  let m := if mp <? 10 then mp + 3 else mp - 9 in
  (if m <=? 2 then yoe + era * 400 + 1 else yoe + era * 400, m, d).

(** The [Date] objects of a host whose clock runs on universal time, for
    the years 0 to 9999: a two-digit year counts from 1900, and a month
    index or a day outside its range carries over. *)
Definition utcCalendar : Calendar := {|
  newDate year monthIndex day :=
    let yy := if (0 <=? year) && (year <=? 99) then 1900 + year else year in
    let months := yy * 12 + monthIndex in
    daysFromCivil (months / 12) (months mod 12 + 1) 1 + (day - 1);
  getDate z := (civilFromDays z).2;
  toISODate z :=
    let '(y, m, d) := civilFromDays z in
    JS.padStart 4 "0" (JS.toString y) +:+ "-" +:+ JS.pad2 m +:+ "-" +:+ JS.pad2 d
|}.

(** *** Portals of the tabular crawler *)

(** A portal that is down: every request ends in a timeout. *)
Definition nowonDown : Nowon.Portal unit := {|
  Nowon.reserve_time_pick _ _ w := (inl "timeout of 10000ms exceeded", w);
  Nowon.api_reserve _ _ w := (inl "timeout of 10000ms exceeded", w)
|}.

(** A portal that answers every request with the same schedule and the
    same reserved list. *)
Definition nowonUp : Nowon.Portal unit := {|
  Nowon.reserve_time_pick _ _ w := (inr twoSlots, w);
  Nowon.api_reserve _ _ w := (inr court18at8, w)
|}.

(** A portal that answers the first schedule request and is down from
    then on; its state counts the schedule requests it has seen. *)
Definition nowonOnce : Nowon.Portal nat := {|
  Nowon.reserve_time_pick _ _ w :=
    (match w with
     | O => inr twoSlots
     | _ => inl "timeout of 10000ms exceeded"
     end, S w);
  Nowon.api_reserve _ _ w := (inr court18at8, w)
|}.

(** *** Collaborators of the embedded-markup crawler *)

Import Tennis.

(** A markup parser that finds the same two controls in every fragment:
    an enabled one at 09:00 and a disabled one at 14:00. *)
Definition twoControls : Cheerio := {|
  checkboxes _ := [mkCheckbox (Some "09:00") None;
                   mkCheckbox (Some "14:00") (Some "disabled")];
  checkboxes_of_value _ := inl "cheerio.load() expects a string"
|}.

(** A JSON parser that rejects every text. *)
Definition rejectAll : JsonParser := {|
  JSON_parse _ := inl "Unexpected token < in JSON at position 0"
|}.

Definition wellFormedBlock : json :=
  JObject [("play_name", JString "A"); ("play_code", JString "01");
           ("htmlx", JString "<ul><li><input type='checkbox' value='09:00'></li></ul>")].

(** A response whose court list holds a [null] before a well-formed block. *)
Definition nullBlockResponse : json :=
  JObject [("play_name", JArray [JNull; wellFormedBlock])].

(** The same response without the [null]. *)
Definition cleanResponse : json :=
  JObject [("play_name", JArray [wellFormedBlock])].

(** A portal that answers every list request with the given data. *)
Definition answering (data : json) : Tennis.Portal unit := {|
  get_index w := (inr tt, w);
  post_list _ w := (inr data, w)
|}.

(** A portal that is down: the index page times out. *)
Definition tennisDown : Tennis.Portal unit := {|
  get_index w := (inl "timeout of 10000ms exceeded", w);
  post_list _ w := (inl "timeout of 15000ms exceeded", w)
|}.

(** A collation that compares byte by byte. *)
Definition byteOrder : Collation := {|
  localeCompare x y :=
    match String_as_OT.compare x y with
    | Lt => -1
    | Eq => 0
    | Gt => 1
    end
|}.

(** What a short run has gathered: the rows of two dates, the later date
    first, with one court of the first facility listed twice for the same
    start. *)
Definition gathered : Nowon.MonthResults :=
  Nowon.mkMonth
    [Nowon.mkRow "2025-10-16" "1코트" "08:00" "09:00" "예약가능";
     Nowon.mkRow "2025-10-15" "2코트" "09:00" "10:00" "예약불가";
     Nowon.mkRow "2025-10-15" "1코트" "08:00" "09:00" "예약가능";
     Nowon.mkRow "2025-10-15" "1코트" "08:00" "10:00" "예약불가"]
    [Nowon.mkRow "2025-10-15" "11코트" "08:00" "09:00" "예약가능"]
    [Nowon.mkRow "2025-10-15" "21코트" "08:00" "09:00" "예약가능"].

End Samples.

Module MoreSamples.
Import Nowon.

(** A portal whose schedule endpoint answers and whose reserved-list
    endpoint is down. *)
Definition reserveDown : Nowon.Portal unit := {|
  Nowon.reserve_time_pick _ _ w := (inr Samples.twoSlots, w);
  Nowon.api_reserve _ _ w := (inl "Request failed with status code 500", w)
|}.

(** The portal [P] behind a server that puts a byte order mark in front
    of every text it answers a list request with. *)
Definition withMark {W : Type} (P : Tennis.Portal W) : Tennis.Portal W := {|
  Tennis.get_index := @Tennis.get_index W P;
  Tennis.post_list d w :=
    match @Tennis.post_list W P d w with
    | (inr (Tennis.JString s), w') =>
        (inr (Tennis.JString (TennisTotals.byteOrderMark +:+ s)), w')
    | other => other
    end
|}.

(** A JSON parser that reads the empty object and nothing else. *)
Definition emptyObjectOnly : Tennis.JsonParser := {|
  Tennis.JSON_parse s :=
    if (s =? "{}")%string then inr (Tennis.JObject [])
    else inl "Unexpected token in JSON"
|}.

(** A host of the tabular crawler whose login endpoint answers with the
    given data and status, and whose disk takes every write. *)
Definition nowonSite (d : Tennis.json) (status : Z) : NowonProgram.Site unit := {|
  NowonProgram.loginAction _ _ w := (inr (NowonProgram.mkReply d status), w);
  NowonProgram.existsSync _ _ := false;
  NowonProgram.mkdirSync _ w := (inr tt, w);
  NowonProgram.writeFileSync _ _ w := (inr tt, w)
|}.


(** A host whose sign-on page is down. *)
Definition tennisSiteDown : TennisProgram.Site unit := {|
  TennisProgram.get_login w := (inl "timeout of 15000ms exceeded", w);
  TennisProgram.post_login _ _ w := (inl "timeout of 20000ms exceeded", w);
  TennisProgram.writeFileSync _ _ w := (inr tt, w)
|}.

End MoreSamples.
(** * Properties *)

(** ** The circuit breaker *)

Module BreakerFacts.
Import Breaker BreakerRun.

Lemma recordFailure_threshold now b :
  failure_threshold (recordFailure now b) = failure_threshold b.
Proof. reflexivity. Qed.

Lemma recordFailure_count now b :
  failure_count (recordFailure now b) = failure_count b + 1.
Proof. reflexivity. Qed.

Lemma isAvailable_after now b :
  snd (isAvailable now b) = b
  \/ (state b = OPEN /\ snd (isAvailable now b) = set_state HALF_OPEN b).
Proof.
  unfold isAvailable. destruct (state b); simpl; auto.
  destruct (truthy_time _ && _); simpl; auto.
Qed.

Lemma reachable_invariant threshold timeout b :
  reachable threshold timeout b -> invariant threshold timeout b.
Proof.
  induction 1 as [|now b Hb IH Hnow|b Hb IH|now b Hb IH Hnow].
  - split; simpl; try done; try lia.
  - destruct (isAvailable_after now b) as [-> | [Hs ->]]; [done|].
    destruct IH as [Hth Hto Hc Ht Htr]. split; simpl; try done.
    intros _. apply Htr. congruence.
  - destruct IH as [Hth Hto Hc Ht Htr]. split; simpl; try done.
  - destruct IH as [Hth Hto Hc Ht Htr]. split; simpl; try done; try lia.
    + intros t [= <-]. done.
    + destruct (failure_threshold b <=? failure_count b + 1) eqn:Hle.
      * intros _. split; [lia | eauto].
      * intros Hs. destruct (Htr Hs) as [Hge _]. lia.
Qed.


Lemma recordFailures_snoc ts t b :
  recordFailures (ts ++ [t]) b = recordFailure t (recordFailures ts b).
Proof. unfold recordFailures. by rewrite fold_left_app. Qed.



(** The assumption on the clock matters: a failure recorded at the clock
    reading 0 leaves a time that [isAvailable] takes for none, and the
    breaker then stays open however long one waits. *)
Lemma open_forever_at_epoch threshold timeout count now :
  isAvailable now (mkBreaker threshold timeout count (Some 0) OPEN)
  = (false, mkBreaker threshold timeout count (Some 0) OPEN).
Proof. reflexivity. Qed.


End BreakerFacts.

(** ** Number rendering *)

Module JSFacts.
Import JS JSRead.

Lemma decode_toString n : decode (toString n) = Some n.
Proof.
  unfold decode, toString.
  rewrite NilZero.isi.
  - simpl. by rewrite DecimalZ.of_to.
  - destruct n; simpl; try discriminate.
    intros [= Hp]. by destruct (DecimalPos.Unsigned.to_uint_nonnil p).
  - destruct n; simpl; try discriminate.
    intros [= Hp]. by destruct (DecimalPos.Unsigned.to_uint_nonnil p).
Qed.

Lemma toString_inj n m : toString n = toString m -> n = m.
Proof.
  intros E. apply (f_equal decode) in E. rewrite !decode_toString in E.
  congruence.
Qed.

Lemma toString_nonempty n : toString n <> EmptyString.
Proof.
  intros E. apply (f_equal decode) in E. rewrite decode_toString in E.
  discriminate.
Qed.

(** A leading zero does not change the value read back. *)
Lemma decode_zero a s :
  a <> "-"%char -> decode (String "0" (String a s)) = decode (String a s).
Proof.
  intros Ha. unfold decode, NilZero.int_of_string.
  destruct (Ascii.eqb_spec a "-"); [done|].
  simpl. unfold NilZero.uint_of_string. simpl.
  destruct (uint_of_char a (NilEmpty.uint_of_string s)); reflexivity.
Qed.

Lemma padStart_cases s :
  s <> EmptyString ->
  (exists a, s = String a EmptyString /\ padStart 2 "0" s = String "0" s)
  \/ ((2 <= String.length s)%nat /\ padStart 2 "0" s = s).
Proof.
  intros Hs. destruct s as [|a [|b s]]; [done | left | right].
  - exists a. split; reflexivity.
  - split; [simpl; lia | reflexivity].
Qed.

Lemma decode_pad2 n : decode (pad2 n) = Some n.
Proof.
  unfold pad2.
  destruct (padStart_cases (toString n) (toString_nonempty n))
    as [(a & Ha & ->) | [_ ->]]; [|apply decode_toString].
  rewrite Ha, decode_zero; [by rewrite <- Ha, decode_toString|].
  intros ->. pose proof (decode_toString n) as E. rewrite Ha in E.
  discriminate.
Qed.

Lemma pad2_inj n m : pad2 n = pad2 m -> n = m.
Proof.
  intros E. apply (f_equal decode) in E. rewrite !decode_pad2 in E.
  congruence.
Qed.

Lemma length_append (s t : string) :
  String.length (s +:+ t) = (String.length s + String.length t)%nat.
Proof. induction s as [|a s IH]; simpl; [done | by rewrite IH]. Qed.


End JSFacts.

(** ** The tabular normaliser *)

Module NowonFacts.
Import JS JSFacts Nowon NowonRows.

Lemma reservedSetOf_acc (reservedList : list ReservedItem) (acc : gset string) k :
  k ∈ fold_left (fun acc r => {[ keyOf r ]} ∪ acc) reservedList acc
  <-> k ∈ acc \/ exists r, r ∈ reservedList /\ keyOf r = k.
Proof.
  revert acc. induction reservedList as [|r l IH]; intros acc; simpl.
  - split; [auto | intros [?|(r & Hr & _)]; [done | by apply elem_of_nil in Hr]].
  - rewrite IH. rewrite elem_of_union, elem_of_singleton. split.
    + intros [[->|?]|(r' & Hr' & E)]; eauto.
      * right. exists r. split; [left | done].
      * right. exists r'. split; [by right | done].
    + intros [?|(r' & Hr' & E)]; [auto|].
      apply elem_of_cons in Hr' as [->|Hr']; [auto | right; eauto].
Qed.

(** The set the first loop builds holds exactly the keys of the entries. *)
Lemma reservedSetOf_spec (reservedList : list ReservedItem) k :
  k ∈ reservedSetOf reservedList <-> exists r, r ∈ reservedList /\ keyOf r = k.
Proof.
  unfold reservedSetOf. rewrite reservedSetOf_acc. split; [|auto].
  intros [Hk|?]; [|done]. by apply not_elem_of_empty in Hk.
Qed.

Lemma rowOf_startTime d p rs startTxt endTxt c :
  startTime (rowOf d p rs startTxt endTxt c) = startTxt.
Proof. unfold rowOf. by destruct (courtParts c). Qed.

Lemma rowOf_court d p rs startTxt endTxt c :
  court (rowOf d p rs startTxt endTxt c) = courtNumOf p (courtParts c).1.
Proof. unfold rowOf. by destruct (courtParts c). Qed.

Lemma rowOf_status d p rs startTxt endTxt c :
  status (rowOf d p rs startTxt endTxt c)
  = if bool_decide ((courtParts c).2 +:+ "," +:+ startTxt ∈ rs)
    then reservedText else bookableText.
Proof. unfold rowOf. by destruct (courtParts c). Qed.

(** The rows of the two nested loops: one per interval and court. *)
Lemma elem_of_slotRows n start h d p rs courts row :
  row ∈ slotRows n start h d p rs courts
  <-> exists i c, (i < n)%nat /\ c ∈ courts
        /\ row = rowOf d p rs (hourText (hourAt i start h))
                       (hourText (hourAt i start h + h)%Q) c.
Proof.
  revert start. induction n as [|n IH]; intros start; simpl.
  - split; [intros Hr; by apply elem_of_nil in Hr | intros (i & _ & Hi & _); lia].
  - rewrite elem_of_app, list_elem_of_fmap, IH. split.
    + intros [(c & -> & Hc) | (i & c & Hi & Hc & ->)].
      * exists 0%nat, c. split; [lia | done].
      * exists (S i), c. split; [lia | done].
    + intros (i & c & Hi & Hc & ->). destruct i as [|i].
      * left. exists c. done.
      * right. exists i, c. split; [lia | done].
Qed.

Lemma texts_differ : reservedText <> bookableText.
Proof. discriminate. Qed.

(** Two one-hour intervals from 8 o'clock and nothing reserved: every
    court is bookable from 08:00 to 09:00 and from 09:00 to 10:00. *)
Example two_slots_nothing_reserved :
  map (fun r => (court r, startTime r, endTime r, status r))
      (rowsOfResponses "2025-10-15" 15 Samples.twoSlots (mkCheckReserve None))
  = [("1코트", "08:00", "09:00", "예약가능"); ("2코트", "08:00", "09:00", "예약가능");
     ("3코트", "08:00", "09:00", "예약가능"); ("1코트", "09:00", "10:00", "예약가능");
     ("2코트", "09:00", "10:00", "예약가능"); ("3코트", "09:00", "10:00", "예약가능")].
Proof. reflexivity. Qed.

(** The same schedule with the key "31,08:00" reserved: the court whose
    sequence id is 31 is taken at 08:00 and free at 09:00. *)
Example two_slots_court_31_reserved :
  map (fun r => (startTime r, status r))
      (filter (fun r => court r = "22코트")
              (rowsOfResponses "2025-10-15" 17 Samples.twoSlots
                 (mkCheckReserve (Some [mkReserved (Some (CseqString "31"))
                                                   (Some "08:00")]))))
  = [("08:00", "예약불가"); ("09:00", "예약가능")].
Proof. reflexivity. Qed.

(** Claim C4.  Every row the tabular normaliser generates belongs to one
    interval [i] below the slot count and one court [c] of the roster of
    the facility; its start text is the zero-padded floor of the start
    hour of interval [i]; and it reads "not bookable" exactly when some
    entry of the reserved list has, after normalisation of its begin time,
    the key made of the sequence id of [c], a comma and that start text,
    and "bookable" exactly when no entry has. *)
Theorem C4_flag_is_reserved_membership
    (pickDate : string) (cate2 : Z) (result : TimeListResponse)
    (reserved : CheckReserveResponse) (row : CrawlRow) :
  row ∈ rowsOfResponses pickDate cate2 result reserved ->
  exists (i : nat) (c : string),
    (i < lineCount result)%nat
    /\ c ∈ (courtsOf cate2).1
    /\ court row = courtNumOf (courtsOf cate2).2 (courtParts c).1
    /\ startTime row = hourText (hourAt i (useBeginHour result) (hourUnit result))
    /\ (status row = reservedText
        <-> exists r, r ∈ default [] (list_ reserved)
              /\ keyOf r = (courtParts c).2 +:+ "," +:+ startTime row)
    /\ (status row = bookableText
        <-> ~ exists r, r ∈ default [] (list_ reserved)
                /\ keyOf r = (courtParts c).2 +:+ "," +:+ startTime row).
Proof.
  unfold rowsOfResponses. destruct (courtsOf cate2) as [courts prefix]. simpl.
  rewrite elem_of_slotRows. intros (i & c & Hi & Hc & ->).
  exists i, c. rewrite rowOf_court, rowOf_startTime, rowOf_status.
  repeat split; try done.
  - case_bool_decide as Hk; [intros _; by apply reservedSetOf_spec|].
    intros E. by destruct texts_differ.
  - intros Hk. apply reservedSetOf_spec in Hk. by rewrite bool_decide_eq_true_2.
  - case_bool_decide as Hk; [intros E; by destruct texts_differ|].
    intros _ Hr. by apply Hk, reservedSetOf_spec.
  - intros Hn. case_bool_decide as Hk; [|done].
    destruct Hn. by apply reservedSetOf_spec.
Qed.

(** The first row of the sample run: court 18 is taken at 08:00. *)
Lemma C4_flag_is_reserved_membership_witness :
  Samples.firstRow ∈ rowsOfResponses "2025-10-15" 15 Samples.twoSlots Samples.court18at8
  /\ exists (i : nat) (c : string),
       (i < lineCount Samples.twoSlots)%nat
       /\ c ∈ (courtsOf 15).1
       /\ court Samples.firstRow = courtNumOf (courtsOf 15).2 (courtParts c).1
       /\ startTime Samples.firstRow
          = hourText (hourAt i (useBeginHour Samples.twoSlots) (hourUnit Samples.twoSlots))
       /\ (status Samples.firstRow = reservedText
           <-> exists r, r ∈ default [] (list_ Samples.court18at8)
                 /\ keyOf r = (courtParts c).2 +:+ "," +:+ startTime Samples.firstRow)
       /\ (status Samples.firstRow = bookableText
           <-> ~ exists r, r ∈ default [] (list_ Samples.court18at8)
                   /\ keyOf r = (courtParts c).2 +:+ "," +:+ startTime Samples.firstRow).
Proof.
  assert (Hin : Samples.firstRow
                ∈ rowsOfResponses "2025-10-15" 15 Samples.twoSlots Samples.court18at8).
  { apply list_elem_of_In. vm_compute. left. reflexivity. }
  split; [exact Hin|].
  exact (C4_flag_is_reserved_membership "2025-10-15" 15 Samples.twoSlots
           Samples.court18at8 Samples.firstRow Hin).
Defined.



(** *** Start texts *)










End NowonFacts.

(** ** The embedded-markup normaliser *)

Module TennisParseFacts.
Import JS JSFacts Tennis TennisParse.

Lemma digit_cases (a : ascii) :
  isDigit a = true ->
  In a ["0"; "1"; "2"; "3"; "4"; "5"; "6"; "7"; "8"; "9"]%char.
Proof.
  destruct a as [[] [] [] [] [] [] [] []]; vm_compute; intros E;
    try discriminate E; auto 11.
Qed.

Lemma matchAt_groups s h m : matchAt s = Some (h, m) -> timeGroups h m.
Proof.
  unfold matchAt.
  destruct s as [|c1 [|c2 [|c3 [|c4 rest]]]]; try discriminate.
  assert (Hone : (if isDigit c1 && (c2 =? ":")%char && isDigit c3 && isDigit c4
                  then Some (String c1 EmptyString, String c3 (String c4 EmptyString))
                  else None) = Some (h, m) -> timeGroups h m).
  { destruct (isDigit c1 && (c2 =? ":")%char && isDigit c3 && isDigit c4) eqn:E;
      [|discriminate].
    intros [= <- <-]. rewrite !andb_true_iff in E. destruct E as [[[? ?] ?] ?].
    split; [eauto 6 | left; eauto]. }
  destruct rest as [|c5 rest]; [exact Hone|].
  destruct (isDigit c1 && isDigit c2 && (c3 =? ":")%char && isDigit c4 && isDigit c5)
    eqn:E2; [|exact Hone].
  intros [= <- <-]. rewrite !andb_true_iff in E2. destruct E2 as [[[[? ?] ?] ?] ?].
  split; [eauto 6 | right; eauto 6].
Qed.

Lemma matchTime_cons a s :
  matchTime (String a s)
  = match matchAt (String a s) with
    | Some r => Some r
    | None => matchTime s
    end.
Proof. reflexivity. Qed.

Lemma matchTime_groups s h m : matchTime s = Some (h, m) -> timeGroups h m.
Proof.
  induction s as [|a s IH]; [discriminate|].
  rewrite matchTime_cons.
  destruct (matchAt (String a s)) as [[h' m']|] eqn:E.
  - intros [= <- <-]. by apply matchAt_groups in E.
  - exact IH.
Qed.

Ltac read_hour :=
  match goal with
  | |- exists v, parseInt ?s = Some v /\ _ =>
      exists (default 0 (parseInt s));
      split; [reflexivity | vm_compute; split; discriminate]
  end.

(** One or two digits read as a number between 0 and 99. *)
Lemma parseInt_hour h m :
  timeGroups h m -> exists v, parseInt h = Some v /\ 0 <= v <= 99.
Proof.
  intros [_ [(h1 & -> & D1) | (h1 & h2 & -> & D1 & D2)]].
  - apply digit_cases in D1. simpl in D1.
    repeat (destruct D1 as [<- | D1]; [read_hour|]). done.
  - apply digit_cases in D1. apply digit_cases in D2. simpl in D1, D2.
    repeat (destruct D1 as [<- | D1];
            [repeat (destruct D2 as [<- | D2]; [read_hour|]); done|]).
    done.
Qed.

Lemma append_eq_length (s1 s2 t1 t2 : string) :
  s1 +:+ t1 = s2 +:+ t2 -> String.length t1 = String.length t2 ->
  s1 = s2 /\ t1 = t2.
Proof.
  revert s2. induction s1 as [|a s1 IH]; intros [|b s2] E Hlen; simpl in *.
  - done.
  - apply (f_equal String.length) in E.
    rewrite ?length_append in E. simpl in E. rewrite ?length_append in E. lia.
  - apply (f_equal String.length) in E.
    rewrite ?length_append in E. simpl in E. rewrite ?length_append in E. lia.
  - injection E as -> E. destruct (IH s2 E Hlen) as [-> ->]. done.
Qed.

Lemma elem_of_slots (cs : list Checkbox) (slot : TimeSlot.t) :
  slot ∈ slotsOfCheckboxes cs <-> exists c, c ∈ cs /\ slotOf c = Some slot.
Proof. unfold slotsOfCheckboxes. apply list_elem_of_omap. Qed.

(** The slot of a control whose value holds a time. *)
Lemma slotOf_matched c h m v :
  matchTime (orString (attr_value c) "") = Some (h, m) ->
  parseInt h = Some v ->
  slotOf c
  = if bool_decide (v = 6) && (m =? "00")%string then None
    else
      let isAvailable := match attr_disabled c with
                         | Some (String _ _) => false
                         | _ => true
                         end in
      Some (TimeSlot.mk (pad2 (if 7 <=? v then v - 1 else v) +:+ ":" +:+ m)
                        isAvailable ""
                        (if isAvailable then "available" else "disabled")).
Proof.
  intros Hm Hv. unfold slotOf. rewrite Hm, Hv.
  assert (E : bool_decide (Some v = Some 6) = bool_decide (v = 6)).
  { apply bool_decide_ext. split; [by intros [= ->] | by intros ->]. }
  rewrite E. destruct (bool_decide (v = 6) && (m =? "00")%string); [done|].
  by destruct (7 <=? v).
Qed.

(** An enabled control at 09:00 and a disabled one at 14:00: two slots, an
    hour earlier each, the first bookable and the second not. *)
Example enabled_nine_disabled_fourteen :
  slotsOfCheckboxes [mkCheckbox (Some "09:00") None;
                     mkCheckbox (Some "14:00") (Some "disabled")]
  = [TimeSlot.mk "08:00" true "" "available";
     TimeSlot.mk "13:00" false "" "disabled"].
Proof. reflexivity. Qed.

(** Claim C5, as the code has it.  A control whose value advertises 6
    o'clock sharp contributes no slot.  Every other control whose value
    holds a time contributes one slot, whose hour is the advertised one
    less one when that is 7 or more, and the advertised one otherwise.  So a
    slot "06:00" does occur in the output: exactly for a control that
    advertises 7 o'clock sharp. *)
Theorem C5_placeholder_dropped_hours_shifted (cs : list Checkbox) :
  (forall c h, c ∈ cs ->
      matchTime (orString (attr_value c) "") = Some (h, "00") ->
      parseInt h = Some 6 ->
      slotOf c = None)
  /\ (forall c h m v, c ∈ cs ->
        matchTime (orString (attr_value c) "") = Some (h, m) ->
        parseInt h = Some v ->
        ~ (v = 6 /\ m = "00") ->
        exists slot, slotOf c = Some slot
          /\ slot ∈ slotsOfCheckboxes cs
          /\ TimeSlot.time slot = pad2 (if 7 <=? v then v - 1 else v) +:+ ":" +:+ m)
  /\ (forall slot, slot ∈ slotsOfCheckboxes cs ->
        TimeSlot.time slot = "06:00" ->
        exists c h, c ∈ cs
          /\ matchTime (orString (attr_value c) "") = Some (h, "00")
          /\ parseInt h = Some 7).
Proof.
  split; [|split].
  - intros c h _ Hm Hv. by rewrite (slotOf_matched c h "00" 6 Hm Hv).
  - intros c h m v Hc Hm Hv Hnot.
    pose proof (slotOf_matched c h m v Hm Hv) as E.
    destruct (bool_decide (v = 6) && (m =? "00")%string) eqn:Hdrop.
    + apply andb_prop in Hdrop as [H6 H00].
      apply bool_decide_eq_true_1 in H6. apply String.eqb_eq in H00. tauto.
    + eexists. split; [exact E|]. split; [|reflexivity].
      apply elem_of_slots. eauto.
  - intros slot Hin Htime.
    apply elem_of_slots in Hin as (c & Hc & Hslot).
    destruct (matchTime (orString (attr_value c) "")) as [[h m]|] eqn:Hm;
      [|unfold slotOf in Hslot; by rewrite Hm in Hslot].
    pose proof (matchTime_groups _ _ _ Hm) as Hg.
    destruct (parseInt_hour h m Hg) as (v & Hv & Hrange).
    rewrite (slotOf_matched c h m v Hm Hv) in Hslot.
    destruct (bool_decide (v = 6) && (m =? "00")%string) eqn:Hdrop; [done|].
    injection Hslot as <-. simpl in Htime.
    destruct Hg as [(m1 & m2 & -> & _) _].
    apply (append_eq_length _ "06" _ ":00") in Htime as [Hh Hmin]; [|done].
    injection Hmin as -> ->.
    change "06" with (pad2 6) in Hh. apply pad2_inj in Hh.
    exists c, h. split; [done|].
    destruct (7 <=? v) eqn:H7.
    + assert (v = 7) as -> by lia. done.
    + subst v. done.
Qed.

(** Claim C5 as stated fails: a control that advertises "07:00" yields a
    slot whose time is "06:00". *)
Lemma C5_seven_becomes_six_counterexample :
  exists slot,
    slot ∈ slotsOfCheckboxes [mkCheckbox (Some "07:00") None]
    /\ TimeSlot.time slot = "06:00".
Proof.
  exists (TimeSlot.mk "06:00" true "" "available").
  split; [|reflexivity]. apply list_elem_of_In. vm_compute. left. reflexivity.
Qed.

End TennisParseFacts.

(** ** Runs of the embedded-markup crawler *)

Module TennisRunFacts.
Import JS Tennis TennisRun.

Section Run.
Context {W : Type} `{Portal W} `{Cheerio} `{JsonParser} `{Calendar}.






Lemma intersperse_cons {A} (sep x y : A) (l : list A) :
  intersperse sep (x :: y :: l) = x :: sep :: intersperse sep (y :: l).
Proof. reflexivity. Qed.



End Run.

End TennisRunFacts.

(** ** Runs of the tabular crawler *)

Module NowonRunFacts.
Import JS Nowon NowonRun.

Section Run.
Context {W : Type} `{Portal W} `{Calendar}.

Lemma totalRows_push name rows acc :
  totalRows (push name rows acc) = (totalRows acc + length rows)%nat.
Proof. destruct name; unfold totalRows; simpl; rewrite length_app; lia. Qed.

Lemma okRows_app tr1 tr2 : okRows (tr1 ++ tr2) = (okRows tr1 + okRows tr2)%nat.
Proof.
  induction tr1 as [|e tr1 IH]; simpl; [done|]. destruct e; rewrite ?IH; lia.
Qed.

Lemma okRows_outcomes tr : okRows (outcomes tr) = okRows tr.
Proof.
  induction tr as [|e tr IH]; simpl; [done|]. destruct e; simpl; by rewrite ?IH.
Qed.

(** A reserved-list request that fails does not fail the call: the list
    counts as empty. *)
Lemma checkReserve_returns pickDate cate2 (st : RunState W) :
  exists reserved st',
    checkReserve pickDate cate2 st = (inr reserved, st')
    /\ (forall e w, api_reserve pickDate cate2 (world st) = (inl e, w) ->
          reserved = mkCheckReserve None).
Proof.
  unfold checkReserve, try_catch, bind, emit, request, ret. simpl.
  destruct (api_reserve pickDate cate2 (world st)) as [[e|reserved] w]; simpl;
    eexists _, _; split; try reflexivity; congruence.
Qed.

(** One (date, facility) pair.  The attempt always ends, with one schedule
    request sent.  Either it succeeded: its rows are appended to the list
    of its facility, the success line is printed and, when the delay is
    positive, one sleep follows.  Or it failed: the failure line is
    printed, the result is left as it was and no sleep follows. *)
Lemma crawlPair_spec delay pickDate cate2 name displayName acc (st : RunState W) :
  exists r st' evs,
    crawlPair delay pickDate (cate2, name, displayName) acc st = (inr r, st')
    /\ trace st' = trace st ++ evs
    /\ attempts evs = [EvTimeList pickDate cate2]
    /\ ((exists rows,
           fst (crawlAvailableTimes pickDate cate2 st) = inr rows
           /\ r = push name rows acc
           /\ outcomes evs = [EvOk pickDate displayName (length rows)]
           /\ pacing evs = withSleep delay (EvOk pickDate displayName (length rows)))
        \/ (exists message,
              fst (crawlAvailableTimes pickDate cate2 st) = inl message
              /\ r = acc
              /\ outcomes evs = [EvFail pickDate displayName message]
              /\ pacing evs = [EvFail pickDate displayName message])).
Proof.
  unfold crawlPair, try_catch, bind, crawlAvailableTimes, getTimeList,
    checkReserve, try_catch, bind, sleep, emit, request, ret. simpl.
  destruct (reserve_time_pick pickDate cate2 (world st)) as [[e|result] w1]; simpl.
  { eexists _, _, [EvTimeList pickDate cate2; EvFail pickDate displayName e].
    rewrite <- app_assoc. repeat split. right. exists e. done. }
  destruct (api_reserve pickDate cate2 w1) as [[e|reserved] w2]; simpl;
    destruct (Qle_bool delay 0) eqn:Hdelay; simpl;
    (eexists _, _, _; split; [reflexivity|];
     split; [simpl; rewrite <- !app_assoc; simpl; reflexivity|];
     split; [reflexivity|]; left; eexists; split; [reflexivity|];
     split; [reflexivity|]; split; reflexivity).
Qed.

Lemma crawlPairs_cons delay pickDate f rest acc (st : RunState W) :
  crawlPairs delay ((pickDate, f) :: rest) acc st
  = match crawlPair delay pickDate f acc st with
    | (inr acc', st1) => crawlPairs delay rest acc' st1
    | (inl e, st1) => (inl e, st1)
    end.
Proof. reflexivity. Qed.

(** The two nested loops of [crawlMonth] over the pairs still to visit:
    they return; every pair is attempted, in order, whatever became of the
    pairs before it, and ends in one outcome line; the rows added to the
    result are those the success lines announce, so a failed pair adds
    none; and the sleeps are exactly those that follow a success. *)
Lemma crawlPairs_spec delay pairs :
  forall acc (st : RunState W),
    exists r st' evs,
      crawlPairs delay pairs acc st = (inr r, st')
      /\ trace st' = trace st ++ evs
      /\ attempts evs = map (fun p => EvTimeList p.1 p.2.1.1) pairs
      /\ map outcomePair (outcomes evs) = map (fun p => Some (p.1, p.2.2)) pairs
      /\ totalRows r = (totalRows acc + okRows evs)%nat
      /\ pacing evs = flat_map (withSleep delay) (outcomes evs).
Proof.
  induction pairs as [|[pickDate [[cate2 name] displayName]] rest IH]; intros acc st.
  - exists acc, st, []. simpl. rewrite app_nil_r. repeat split; auto.
  - rewrite crawlPairs_cons.
    destruct (crawlPair_spec delay pickDate cate2 name displayName acc st)
      as (r1 & st1 & evs1 & -> & Ht1 & Ha1 & Hout).
    destruct (IH r1 st1) as (r & st' & evs & -> & Ht & Ha & Ho & Hrows & Hp).
    exists r, st', (evs1 ++ evs).
    unfold attempts, outcomes, pacing in *.
    rewrite !List.filter_app, map_app, flat_map_app, okRows_app, Ha1, Ha, Ho, Hp, Ht, Ht1.
    rewrite <- app_assoc.
    assert (Hok : okRows evs1 = okRows (List.filter isOutcome evs1))
      by (symmetry; apply okRows_outcomes).
    destruct Hout as [(rows & _ & -> & Ho1 & Hp1) | (message & _ & -> & Ho1 & Hp1)];
      rewrite Ho1 in Hok; simpl in Hok;
      rewrite Ho1, Hp1, Hrows; simpl; rewrite ?totalRows_push, ?app_nil_r;
      repeat split; auto; try lia.
Qed.

(** [crawlMonth] on the tabular crawler. *)
Lemma nowon_crawlMonth_spec year month delay (st : RunState W) :
  let pairs := pairsOf (newDate year (month - 1) 1) (newDate year month 0) in
  exists r st' evs,
    crawlMonth year month delay st = (inr r, st')
    /\ trace st' = trace st ++ evs
    /\ attempts evs = map (fun p => EvTimeList p.1 p.2.1.1) pairs
    /\ map outcomePair (outcomes evs) = map (fun p => Some (p.1, p.2.2)) pairs
    /\ totalRows r = okRows evs
    /\ pacing evs = flat_map (withSleep delay) (outcomes evs).
Proof.
  intros pairs. unfold crawlMonth. fold pairs.
  destruct (crawlPairs_spec delay pairs (mkMonth [] [] []) st)
    as (r & st' & evs & E & Ht & Ha & Ho & Hrows & Hp).
  exists r, st', evs. repeat split; auto.
Qed.

End Run.

End NowonRunFacts.

(** ** Sorting and the export *)

Module SortFacts.
Import JS.

Section Sort.
Context {A : Type} (compare : A -> A -> Z).

Lemma insert_Permutation x l : Permutation (insert compare x l) (x :: l).
Proof.
  induction l as [|y l IH]; simpl; [done|].
  destruct (0 <? compare x y); [|done].
  rewrite IH. apply perm_swap.
Qed.

Lemma sort_Permutation l : Permutation (sort compare l) l.
Proof.
  induction l as [|x l IH]; simpl; [done|].
  by rewrite insert_Permutation, IH.
Qed.



Hypothesis compare_total : forall a b, 0 < compare a b -> compare b a <= 0.
Hypothesis compare_trans :
  forall a b c, compare a b <= 0 -> compare b c <= 0 -> compare a c <= 0.

Lemma insert_sorted x l :
  StronglySorted (fun a b => compare a b <= 0) l ->
  StronglySorted (fun a b => compare a b <= 0) (insert compare x l).
Proof.
  induction 1 as [|y l Hl IH Hy]; simpl.
  - repeat constructor.
  - destruct (0 <? compare x y) eqn:Hxy.
    + constructor; [exact IH|].
      rewrite insert_Permutation. constructor; [|exact Hy].
      apply compare_total. lia.
    + assert (Hle : compare x y <= 0) by lia.
      constructor; [by constructor|]. constructor; [exact Hle|].
      eapply Forall_impl; [exact Hy|]. intros z Hz. by apply compare_trans with y.
Qed.

Lemma sort_sorted l : StronglySorted (fun a b => compare a b <= 0) (sort compare l).
Proof.
  induction l as [|x l IH]; simpl; [constructor | by apply insert_sorted].
Qed.

End Sort.


End SortFacts.

Module NowonExportFacts.
Import JS Nowon NowonExport SortFacts.

Section Csv.
Context `{Collation} `{!TotalCollation}.

Lemma compareRows_lex a b : compareRows a b = lexCompare (keysOf a) (keysOf b).
Proof.
  unfold compareRows, keysOf. simpl.
  repeat (match goal with
          | |- context [negb (?x =? ?y)%string] => destruct (negb (x =? y)%string) eqn:?
          end; [reflexivity|]).
  rewrite negb_false_iff in *.
  match goal with
  | E : (startTime _ =? startTime _)%string = true |- _ =>
      apply String.eqb_eq in E; rewrite E
  end.
  apply localeCompare_refl.
Qed.

Lemma lexCompare_le xs : forall ys,
  length xs = length ys -> (lexCompare xs ys <= 0 <-> lexLe xs ys).
Proof.
  induction xs as [|x xs IH]; intros [|y ys] Hlen; simpl in *; try lia.
  destruct (String.eqb_spec x y) as [->|Hne]; simpl.
  - rewrite IH by lia. rewrite localeCompare_refl. split; [auto|].
    intros [?|[_ ?]]; [lia | done].
  - split.
    + intros Hle. left.
      destruct (Z.eq_dec (localeCompare x y) 0) as [E|E]; [|lia].
      by apply localeCompare_eq in E.
    + intros [?|[? _]]; [lia | done].
Qed.

Lemma lexCompare_total xs : forall ys,
  0 < lexCompare xs ys -> lexCompare ys xs <= 0.
Proof.
  induction xs as [|x xs IH]; intros [|y ys]; simpl; try lia.
  destruct (String.eqb_spec x y) as [->|Hne]; simpl.
  - rewrite String.eqb_refl. simpl. apply IH.
  - destruct (String.eqb_spec y x) as [->|_]; [done|]. simpl.
    intros Hgt. apply localeCompare_antisym in Hgt. lia.
Qed.

Lemma lexLe_trans xs : forall ys zs,
  length xs = length ys -> length ys = length zs ->
  lexLe xs ys -> lexLe ys zs -> lexLe xs zs.
Proof.
  induction xs as [|x xs IH]; intros [|y ys] [|z zs] H1 H2; simpl in *; try done.
  intros [Hxy | [-> Hxs]] [Hyz | [-> Hys]].
  - left. by apply localeCompare_trans with y.
  - by left.
  - by left.
  - right. split; [done|]. apply (IH ys zs); auto.
Qed.

Lemma compareRows_le a b : compareRows a b <= 0 <-> rowLe a b.
Proof. rewrite compareRows_lex. by apply lexCompare_le. Qed.

Lemma compareRows_total a b : 0 < compareRows a b -> compareRows b a <= 0.
Proof. rewrite !compareRows_lex. apply lexCompare_total. Qed.

Lemma compareRows_trans a b c :
  compareRows a b <= 0 -> compareRows b c <= 0 -> compareRows a c <= 0.
Proof.
  rewrite !compareRows_le. unfold rowLe. by apply lexLe_trans.
Qed.




End Csv.

(** The byte order is a total collation. *)
Lemma byteOrder_total : @TotalCollation Samples.byteOrder.
Proof.
  assert (Hrefl : forall x, String_as_OT.compare x x = Eq).
  { intros x. destruct (String_as_OT.compare_spec x x) as [_|Hlt|Hlt]; [done| |];
      by apply (StrictOrder_Irreflexive x) in Hlt. }
  split; simpl.
  - intros x. by rewrite Hrefl.
  - intros x y. destruct (String_as_OT.compare_spec x y); [done | lia | lia].
  - intros x y. destruct (String_as_OT.compare_spec x y) as [?|?|Hlt]; try lia.
    intros _. unfold String_as_OT.lt in Hlt. by rewrite Hlt.
  - intros x y z.
    destruct (String_as_OT.compare_spec x y) as [?|Hxy|?]; try lia.
    destruct (String_as_OT.compare_spec y z) as [?|Hyz|?]; try lia.
    intros _ _. pose proof (StrictOrder_Transitive x y z Hxy Hyz) as Hxz.
    unfold String_as_OT.lt in Hxz. by rewrite Hxz.
Qed.


End NowonExportFacts.

(** ** Malformed responses *)

Module TennisFaultFacts.
Import JS Tennis TennisRun.

Section Parser.
Context `{Cheerio} `{JsonParser}.

(** A court list that does not parse leaves the result without courts,
    and the result is a success. *)
Lemma unparsable_court_list d s e :
  JSON_parse s = inl e ->
  exists r, parseAvailabilityData d (JObject [("play_name", JString s)]) = inr r
            /\ AvailabilityResult.courts r = []
            /\ AvailabilityResult.status r = "success".
Proof.
  intros Hs. unfold parseAvailabilityData, playDataOf. simpl.
  destruct (negb (s =? "")%string); [rewrite Hs|]; simpl; eexists; done.
Qed.

(** A court block without a markup fragment gets an empty slot list. *)
Lemma block_without_markup i fields :
  field "htmlx" fields = None ->
  exists c, courtOf i (JObject fields) = inr c /\ CourtData.time_slots c = [].
Proof. intros Hx. unfold courtOf. simpl. rewrite Hx. simpl. eexists. done. Qed.

(** Blocks that are objects whose markup is a string or is missing are
    all parsed: each yields its court. *)
Lemma object_blocks_all_parsed blocks :
  Forall (fun b => exists fields, b = JObject fields
                     /\ (field "htmlx" fields = None
                         \/ exists s, field "htmlx" fields = Some (JString s)))
         blocks ->
  forall i, exists cs, courtsFrom i blocks = inr cs /\ length cs = length blocks.
Proof.
  induction 1 as [|b blocks (fields & -> & Hx) _ IH]; intros i; simpl.
  - by exists [].
  - destruct (IH (S i)) as (cs & -> & Hlen).
    assert (Hc : exists c, courtOf i (JObject fields) = inr c).
    { unfold courtOf. simpl. destruct Hx as [-> | (s & ->)]; simpl.
      - eexists. done.
      - destruct (negb (s =? "")%string); eexists; done. }
    destruct Hc as (c & ->). exists (c :: cs). simpl. by rewrite Hlen.
Qed.

(** A [null] among the blocks ends the loop with a TypeError, whatever
    follows it and whatever the blocks before it yielded. *)
Lemma null_block_throws d rest :
  parseAvailabilityData d (JObject [("play_name", JArray (JNull :: rest))])
  = inl "Cannot read properties of null (reading 'play_name')".
Proof. reflexivity. Qed.

End Parser.

(** Claim C6 fails on the code at a court list with a [null] block.  The
    response [{"play_name": [null, block]}] makes the whole call return
    the error-marked result without any court, although the same response
    without the [null] yields the court of the well-formed block with its
    two slots. *)
Theorem C6_null_block_loses_the_other_courts :
  let call data :=
    fst (@checkAvailability unit (Samples.answering data) Samples.twoControls
           Samples.rejectAll "20251015" (newCrawler tt)) in
  call Samples.nullBlockResponse
  = inr (errorResult "20251015" "Cannot read properties of null (reading 'play_name')")
  /\ (exists r, call Samples.cleanResponse = inr r
                /\ AvailabilityResult.status r = "success"
                /\ map (fun c => length (CourtData.time_slots c))
                       (AvailabilityResult.courts r) = [2%nat]).
Proof.
  split; [reflexivity|]. eexists. split; [reflexivity|]. split; reflexivity.
Qed.

(** Claim C2 fails on the code: the crawler holds a breaker and never
    consults it.  With the portal down for the whole of October 2025, all
    31 dates send their request for the index page and come back as
    errors, and the breaker is still the fresh one: closed, nothing
    counted.  Had the failures been recorded, the breaker would have
    opened at the fifth and denied the sixth check. *)
Theorem C2_breaker_is_never_consulted :
  let run := @crawlMonth unit Samples.tennisDown Samples.twoControls
               Samples.rejectAll Samples.utcCalendar 2025 10 (1 # 2) (newCrawler tt) in
  (exists rs, fst run = inr rs
              /\ length rs = 31%nat
              /\ forallb (fun r => (AvailabilityResult.status r =? "error")%string) rs = true)
  /\ length (indexRequests (trace (snd run))) = 31%nat
  /\ circuitBreaker (snd run) = Breaker.new 5 600
  /\ Breaker.state (Breaker.recordFailures [1000; 2000; 3000; 4000; 5000]
                                           (Breaker.new 5 600)) = Breaker.OPEN
  /\ fst (Breaker.isAvailable 6000
            (Breaker.recordFailures [1000; 2000; 3000; 4000; 5000]
                                    (Breaker.new 5 600))) = false.
Proof.
  split; [|repeat split; vm_compute; reflexivity].
  eexists. split; [vm_compute; reflexivity|]. split; vm_compute; reflexivity.
Qed.

End TennisFaultFacts.

(** ** The two orchestration loops *)

Module OrchestrationFacts.

Section Runs.
Context {W1 : Type} `{Tennis.Portal W1} `{Tennis.Cheerio} `{Tennis.JsonParser}.
Context {W2 : Type} `{Nowon.Portal W2} `{Calendar}.



End Runs.



End OrchestrationFacts.

(** * Further properties *)

(** ** The circuit breaker *)

Module BreakerMoreFacts.
Import Breaker BreakerRun BreakerOps BreakerFacts.

(** A check changes nothing of the breaker but its state, and the state
    only from open to half open; it answers yes exactly when it leaves
    the breaker not open; and asking again at the same clock reading gives
    the same answer and changes nothing more. *)
Theorem check_only_half_opens (now : Z) (b : CircuitBreaker) :
  let ok := fst (isAvailable now b) in
  let b' := snd (isAvailable now b) in
  failure_threshold b' = failure_threshold b
  /\ recovery_timeout b' = recovery_timeout b
  /\ failure_count b' = failure_count b
  /\ last_failure_time b' = last_failure_time b
  /\ (b' = b \/ (state b = OPEN /\ state b' = HALF_OPEN))
  /\ (ok = true <-> state b' <> OPEN)
  /\ isAvailable now b' = (ok, b').
Proof.
  unfold isAvailable. destruct b as [th rt c t s]. simpl.
  destruct s; simpl; try (repeat split; auto; congruence).
  destruct (truthy_time t && (rt * 1000 <? now - default 0 t)) eqn:E; simpl.
  - repeat split; auto; congruence.
  - rewrite E. repeat split; auto; congruence.
Qed.

Lemma recordFailures_count ts b :
  failure_count (recordFailures ts b) = failure_count b + Z.of_nat (length ts)
  /\ failure_threshold (recordFailures ts b) = failure_threshold b.
Proof.
  revert b. induction ts as [|t ts IH]; intros b; simpl; [split; [lia | done]|].
  destruct (IH (recordFailure t b)) as [Hc Hth].
  unfold recordFailures in *. rewrite Hc, Hth. simpl. split; [lia | done].
Qed.

Lemma last_cons_default {A : Type} (l : list A) (a d : A) :
  List.last (a :: l) d = List.last l a.
Proof.
  revert a d. induction l as [|x l IH]; intros a d; [reflexivity|].
  change (List.last (a :: x :: l) d) with (List.last (x :: l) d).
  by rewrite (IH x d), (IH x a).
Qed.

(** The count is the number of failures since the last success, the
    recorded time is that of the latest failure, and after a success and
    at least one failure the breaker is open exactly when that number has
    reached the threshold, whatever the threshold: with a threshold of one
    or less the first failure opens it.  A success keeps the time of the
    last failure. *)
Theorem failures_since_success (b : CircuitBreaker) (t : Z) (ts : list Z) :
  let b' := recordFailures (t :: ts) (recordSuccess b) in
  failure_count b' = Z.of_nat (length (t :: ts))
  /\ last_failure_time b' = Some (List.last ts t)
  /\ state b' = (if failure_threshold b <=? Z.of_nat (length (t :: ts))
                 then OPEN else CLOSED)
  /\ last_failure_time (recordSuccess b) = last_failure_time b.
Proof.
  intros b'. subst b'.
  assert (Hgen : forall us u b0,
             state b0 = CLOSED ->
             let b1 := recordFailures (us ++ [u]) b0 in
             last_failure_time b1 = Some u
             /\ state b1 = (if failure_threshold b0
                               <=? failure_count b0 + Z.of_nat (length (us ++ [u]))
                            then OPEN else CLOSED)).
  { induction us as [|v us IH] using rev_ind; intros u b0 Hs; simpl.
    - split; [done|]. rewrite Hs.
      replace (failure_count b0 + 1) with (failure_count b0 + Z.of_nat 1) by lia.
      done.
    - rewrite recordFailures_snoc.
      destruct (IH v b0 Hs) as [_ Hst].
      destruct (recordFailures_count (us ++ [v]) b0) as [Hc Hth].
      unfold recordFailure. simpl. split; [done|].
      rewrite Hst, Hc, Hth. rewrite !length_app in *. simpl in *.
      repeat (match goal with
              | |- context [?x <=? ?y] => destruct (Z.leb_spec x y)
              end); try done; lia. }
  destruct (recordFailures_count (t :: ts) (recordSuccess b)) as [Hc _].
  split; [rewrite Hc; simpl; lia|].
  destruct (exists_last (l := t :: ts) ltac:(discriminate)) as (us & u & E).
  assert (Hlast : List.last ts t = u).
  { rewrite <- (last_cons_default ts t t), E. apply last_last. }
  rewrite Hlast, E.
  destruct (Hgen us u (recordSuccess b) eq_refl) as [H1 H2].
  repeat split; [exact H1 | rewrite H2; simpl; done].
Qed.

(** A tripped breaker is closed by a recorded success only: whatever
    checks and failures follow, it is not closed. *)
Theorem only_success_closes (threshold timeout : Z) (b : CircuitBreaker)
    (ops : list op) :
  reachable threshold timeout b ->
  state b <> CLOSED ->
  state (applyAll ops b) <> CLOSED.
Proof.
  intros Hreach Hs.
  destruct (reachable_invariant _ _ _ Hreach) as [Ith _ _ _ Itr].
  destruct (Itr Hs) as [Hge _]. rewrite <- Ith in Hge. clear Hreach Itr Ith.
  revert b Hs Hge. induction ops as [|o ops IH]; intros b Hs Hge; simpl; [done|].
  apply IH.
  - destruct o as [now|now]; simpl.
    + destruct (isAvailable_after now b) as [-> | [_ ->]]; done.
    + destruct (failure_threshold b <=? failure_count b + 1) eqn:E; [done | lia].
  - destruct o as [now|now]; simpl.
    + destruct (isAvailable_after now b) as [-> | [_ ->]]; done.
    + lia.
Qed.

(** A breaker tripped by two failures stays tripped through a check
    after the timeout and a further failure. *)
Lemma only_success_closes_witness :
  state (applyAll [Check 4000; Fail 4100; Check 4200]
                  (recordFailures [1000; 2000] (new 2 1))) <> CLOSED.
Proof.
  apply (only_success_closes 2 1).
  - apply (reach_failure 2 1 2000); [|lia].
    apply (reach_failure 2 1 1000); [|lia]. apply reach_new.
  - discriminate.
Defined.

End BreakerMoreFacts.

(** ** The tabular normaliser *)

Module NowonMoreFacts.
Import JS JSFacts Nowon NowonRows NowonStats NowonFacts TennisParseFacts.

Lemma length_slotRows n start h d p rs courts :
  length (slotRows n start h d p rs courts) = (n * length courts)%nat.
Proof.
  revert start. induction n as [|n IH]; intros start; simpl; [done|].
  by rewrite length_app, length_map, IH.
Qed.


(** The normaliser yields one row per interval and court of the roster;
    every row carries the requested date and one of the two status
    texts. *)
Theorem rows_count_and_shape
    (pickDate : string) (cate2 : Z) (result : TimeListResponse)
    (reserved : CheckReserveResponse) :
  let rows := rowsOfResponses pickDate cate2 result reserved in
  length rows = (lineCount result * length (courtsOf cate2).1)%nat
  /\ Forall (fun row => date row = pickDate
                        /\ (status row = reservedText \/ status row = bookableText))
            rows.
Proof.
  unfold rowsOfResponses. destruct (courtsOf cate2) as [courts prefix]. simpl.
  split; [apply length_slotRows|].
  apply Forall_forall. intros row Hrow.
  apply elem_of_slotRows in Hrow as (i & c & _ & _ & ->).
  split; [unfold rowOf; by destruct (courtParts c)|].
  rewrite rowOf_status. case_bool_decide; auto.
Qed.


(** A slot count that is no number, or is zero or negative, gives no row
    and no error. *)
Theorem no_rows_without_a_positive_line
    (pickDate : string) (cate2 : Z) (result : TimeListResponse)
    (reserved : CheckReserveResponse) :
  (forall k, parseInt (line result) = Some k -> k <= 0) ->
  rowsOfResponses pickDate cate2 result reserved = [].
Proof.
  intros Hline. unfold rowsOfResponses, lineCount.
  destruct (courtsOf cate2) as [courts prefix].
  destruct (parseInt (line result)) as [k|]; [|done].
  specialize (Hline k eq_refl). by replace (Z.to_nat k) with 0%nat by lia.
Qed.

(** The slot count "none" is no number. *)
Lemma no_rows_without_a_positive_line_witness :
  rowsOfResponses "2025-10-15" 15 (mkTimeList 8 1 "none") Samples.court18at8 = [].
Proof.
  apply no_rows_without_a_positive_line. simpl. discriminate.
Defined.

(** *** Begin times given as a bare hour *)






End NowonMoreFacts.

(** ** Runs of the tabular crawler *)

Module NowonRunMoreFacts.
Import JS Nowon NowonRun NowonStats NowonFacts NowonRunFacts.

Section Run.
Context {W : Type} `{Portal W} `{Calendar}.

Lemma nothing_reserved_all_bookable pickDate cate2 result :
  Forall (fun row => status row = bookableText)
         (rowsOfResponses pickDate cate2 result (mkCheckReserve None)).
Proof.
  unfold rowsOfResponses. destruct (courtsOf cate2) as [courts prefix]. simpl.
  apply Forall_forall. intros row Hrow.
  apply elem_of_slotRows in Hrow as (i & c & _ & _ & ->).
  rewrite rowOf_status. case_bool_decide as Hk; [|done].
  by apply not_elem_of_empty in Hk.
Qed.



(** The two requests of [crawlAvailableTimes] fail differently.  When the
    schedule request fails, the call throws its error and the reserved
    list is not requested.  When the schedule arrives and the reserved-list
    request fails, the call succeeds all the same and reads every slot as
    bookable. *)
Theorem schedule_failure_throws_reserve_failure_reads_bookable
    (pickDate : string) (cate2 : Z) (st : RunState W) :
  (forall e w1,
     reserve_time_pick pickDate cate2 (world st) = (inl e, w1) ->
     crawlAvailableTimes pickDate cate2 st
     = (inl e, mkRun w1 (trace st ++ [EvTimeList pickDate cate2])))
  /\ (forall result w1 e w2,
        reserve_time_pick pickDate cate2 (world st) = (inr result, w1) ->
        api_reserve pickDate cate2 w1 = (inl e, w2) ->
        let rows := rowsOfResponses pickDate cate2 result (mkCheckReserve None) in
        crawlAvailableTimes pickDate cate2 st
        = (inr rows, mkRun w2 (trace st ++ [EvTimeList pickDate cate2;
                                            EvReserve pickDate cate2]))
        /\ Forall (fun row => status row = bookableText) rows).
Proof.
  split.
  - intros e w1 Hs.
    unfold crawlAvailableTimes, getTimeList, bind, emit, request. simpl.
    by rewrite Hs.
  - intros result w1 e w2 Hs Hr. split; [|apply nothing_reserved_all_bookable].
    unfold crawlAvailableTimes, getTimeList, checkReserve, try_catch, bind, emit,
      request, ret. simpl.
    rewrite Hs. simpl. rewrite Hr. simpl. by rewrite <- app_assoc.
Qed.




End Run.

(** With the reserved-list endpoint down the call succeeds and every slot
    reads bookable. *)
Lemma schedule_failure_throws_reserve_failure_reads_bookable_witness :
  let rows := rowsOfResponses "2025-10-15" 15 Samples.twoSlots (mkCheckReserve None) in
  @crawlAvailableTimes unit MoreSamples.reserveDown "2025-10-15" 15 (mkRun tt [])
  = (inr rows, mkRun tt [EvTimeList "2025-10-15" 15; EvReserve "2025-10-15" 15])
  /\ Forall (fun row => status row = bookableText) rows.
Proof.
  exact (proj2 (@schedule_failure_throws_reserve_failure_reads_bookable unit
                  MoreSamples.reserveDown "2025-10-15" 15 (mkRun tt []))
               Samples.twoSlots tt "Request failed with status code 500" tt
               eq_refl eq_refl).
Defined.

End NowonRunMoreFacts.

(** ** The export *)

Module ExportMoreFacts.
Import JS Nowon NowonExport NowonStats SortFacts NowonExportFacts.

Section Sort.
Context {A : Type} (compare : A -> A -> Z).
Hypothesis compare_total : forall a b, 0 < compare a b -> compare b a <= 0.
Hypothesis compare_trans :
  forall a b c, compare a b <= 0 -> compare b c <= 0 -> compare a c <= 0.

Lemma insert_before_all x k :
  Forall (fun z => compare x z <= 0) k -> insert compare x k = x :: k.
Proof.
  destruct 1 as [|z k Hz _]; simpl; [done|].
  destruct (0 <? compare x z) eqn:E; [lia | done].
Qed.

Lemma filter_insert (P : A -> Prop) `{forall a, Decision (P a)} x l :
  StronglySorted (fun a b => compare a b <= 0) l ->
  filter P (insert compare x l)
  = if decide (P x) then insert compare x (filter P l) else filter P l.
Proof.
  induction 1 as [|y l Hl IH Hy]; simpl.
  - rewrite filter_cons, filter_nil. by destruct (decide (P x)).
  - destruct (0 <? compare x y) eqn:Hxy.
    + rewrite !(filter_cons P y), IH.
      destruct (decide (P x)), (decide (P y)); try done.
      simpl. by rewrite Hxy.
    + rewrite (filter_cons P x). destruct (decide (P x)) as [Hx|Hx]; [|done].
      symmetry. apply insert_before_all.
      apply Forall_forall. intros z Hz.
      apply list_elem_of_filter in Hz as [_ Hz].
      apply elem_of_cons in Hz as [->|Hz]; [lia|].
      apply compare_trans with y; [lia|].
      rewrite Forall_forall in Hy. by apply Hy.
Qed.

(** Filtering and sorting can be done in either order. *)
Lemma filter_sort (P : A -> Prop) `{forall a, Decision (P a)} l :
  filter P (sort compare l) = sort compare (filter P l).
Proof.
  induction l as [|x l IH]; simpl; [done|].
  rewrite filter_insert by (by apply sort_sorted).
  rewrite (filter_cons P x), IH. by destruct (decide (P x)).
Qed.

End Sort.

Lemma length_filter_tagged (name : string) (l : list CrawlRow) :
  length (filter (fun r => status (row r) = bookableText)
                 (map (fun r => mkExport r name) l))
  = length (filter (fun r => status r = bookableText) l).
Proof.
  induction l as [|r l IH]; simpl; [done|].
  rewrite (filter_cons (fun r => status (row r) = bookableText)),
    (filter_cons (fun r => status r = bookableText)). simpl.
  destruct (decide (status r = bookableText)); simpl; by rewrite IH.
Qed.

Section Csv.
Context `{Collation}.

Lemma length_allData results : length (allData results) = totalSlots results.
Proof.
  unfold allData. rewrite (Permutation_length (sort_Permutation _ _)).
  unfold tagAll, totalSlots. rewrite !length_app, !length_map. lia.
Qed.

Lemma length_availableData results :
  length (availableData results) = availableSlots results.
Proof.
  unfold availableData. rewrite (Permutation_length (sort_Permutation _ _)).
  unfold tagAll, availableSlots. rewrite !filter_app, !length_app.
  by rewrite !length_filter_tagged.
Qed.

(** The rows of the two files are the rows the statistics count: the full
    view has one row per slot gathered, the availability-only view one
    row per bookable slot and bookable rows only, and the bookable slots
    are among the slots. *)
Theorem exported_rows_match_statistics (results : MonthResults) :
  length (allData results) = totalSlots results
  /\ length (availableData results) = availableSlots results
  /\ Forall (fun r => status (row r) = bookableText) (availableData results)
  /\ (availableSlots results <= totalSlots results)%nat
  /\ (availableSlots results + unavailableSlots results)%nat = totalSlots results.
Proof.
  assert (Hle : (availableSlots results <= totalSlots results)%nat).
  { unfold availableSlots, totalSlots.
    etransitivity; [apply length_filter|]. rewrite !length_app. lia. }
  repeat split.
  - apply length_allData.
  - apply length_availableData.
  - unfold availableData. apply Forall_forall. intros r Hr.
    rewrite (sort_Permutation compareRows _) in Hr.
    apply list_elem_of_filter in Hr. tauto.
  - exact Hle.
  - unfold unavailableSlots. lia.
Qed.

(** With a total collation, the availability-only view holds the bookable
    rows of the full view, in the order they have there. *)
Theorem available_view_is_the_full_view_filtered `{!TotalCollation}
    (results : MonthResults) :
  availableData results
  = filter (fun r => status (row r) = bookableText) (allData results).
Proof.
  unfold availableData, allData. symmetry.
  apply (filter_sort compareRows compareRows_total compareRows_trans).
Qed.

(** *** The text of the files *)

Lemma hasChar_append c s t : hasChar c (s +:+ t) = hasChar c s || hasChar c t.
Proof.
  induction s as [|a s IH]; simpl; [done|]. by rewrite IH, orb_assoc.
Qed.

Lemma split_nonempty c s : split c s <> [].
Proof.
  destruct s as [|a s]; simpl; [done|].
  destruct (a =? c)%char; [done|]. by destruct (split c s).
Qed.

(** Splitting at a separator gives back the piece before it. *)
Lemma split_piece c x rest :
  hasChar c x = false -> split c (x +:+ String c rest) = x :: split c rest.
Proof.
  induction x as [|a x IH]; simpl.
  - intros _. by rewrite Ascii.eqb_refl.
  - intros Hx. apply orb_false_elim in Hx as [Ha Hx]. rewrite Ha, (IH Hx). done.
Qed.

Lemma split_whole c x : hasChar c x = false -> split c x = [x].
Proof.
  induction x as [|a x IH]; simpl; [done|].
  intros Hx. apply orb_false_elim in Hx as [Ha Hx]. by rewrite Ha, (IH Hx).
Qed.

(** Joining with a separator and splitting at it gives the pieces back,
    when there is a piece and none holds the separator. *)
Lemma split_join c xs :
  xs <> [] -> Forall (fun x => hasChar c x = false) xs ->
  split c (join (String c EmptyString) xs) = xs.
Proof.
  intros Hne Hxs. induction Hxs as [|x xs Hx Hxs IH]; [done|].
  destruct xs as [|y ys].
  - simpl. by apply split_whole.
  - change (join (String c EmptyString) (x :: y :: ys))
      with (x +:+ String c (join (String c EmptyString) (y :: ys))).
    rewrite split_piece by done. by rewrite IH.
Qed.

Lemma join_keeps_out c sep xs :
  hasChar c sep = false -> Forall (fun x => hasChar c x = false) xs ->
  hasChar c (join sep xs) = false.
Proof.
  intros Hsep Hxs. induction Hxs as [|x xs Hx Hxs IH]; [done|].
  destruct xs as [|y ys]; [done|].
  change (join sep (x :: y :: ys)) with (x +:+ sep +:+ join sep (y :: ys)).
  by rewrite !hasChar_append, Hx, Hsep, IH.
Qed.

Lemma tagAll_oneLine results :
  Forall oneLine (bul results ++ ma results ++ cho results) ->
  Forall exportsOneLine (tagAll results).
Proof.
  rewrite !Forall_app. intros (Hb & Hm & Hc). unfold tagAll.
  rewrite !Forall_app, !Forall_map. repeat split;
    (eapply Forall_impl; [eassumption|]); intros r Hr; split; done.
Qed.

Lemma lines_of_file (header : string) (line : ExportRow -> string)
    (rows : list ExportRow) :
  hasChar "010" header = false ->
  Forall (fun r => hasChar "010" (line r) = false) rows ->
  split "010" (join (String "010" EmptyString) (header :: map line rows))
  = header :: map line rows.
Proof.
  intros Hh Hrows. apply split_join; [done|].
  constructor; [done|]. by apply Forall_map.
Qed.

(** When no field of a row holds a line break, each file is its header
    line followed by one line per exported row: as many lines as the
    statistics count slots, and bookable slots, plus one. *)
Theorem one_line_per_exported_row (results : MonthResults) :
  Forall oneLine (bul results ++ ma results ++ cho results) ->
  (exists lines,
     split "010" (generateCSV results) = "날짜,코트,시작시간,종료시간,상태" :: lines
     /\ length lines = totalSlots results)
  /\ (exists lines,
        split "010" (generateAvailableOnlyCSV results)
        = "날짜,코트,시작시간,종료시간" :: lines
        /\ length lines = availableSlots results).
Proof.
  intros Hrows. apply tagAll_oneLine in Hrows.
  pose proof (length_allData results) as Hall.
  pose proof (length_availableData results) as Havail.
  assert (Hline : forall (rows : list ExportRow) (withStatus : bool),
             Forall exportsOneLine rows ->
             Forall (fun r => hasChar "010"
                       (join "," ([date (row r); facility r +:+ " " +:+ court (row r);
                                   startTime (row r); endTime (row r)]
                                  ++ (if withStatus then [status (row r)] else [])))
                     = false) rows).
  { intros rows withStatus Hr. eapply Forall_impl; [exact Hr|].
    intros r [(Hd & Hc & Hs & He & Hst) Hf].
    apply join_keeps_out; [done|].
    repeat constructor; try done.
    - by rewrite !hasChar_append, Hf, Hc.
    - destruct withStatus; repeat constructor; done. }
  split.
  - eexists. unfold generateCSV. split.
    + apply (lines_of_file _ _ (allData results)); [done|].
      apply (Hline _ true). unfold allData.
      by rewrite (sort_Permutation compareRows _).
    + by rewrite length_map.
  - eexists. unfold generateAvailableOnlyCSV. split.
    + apply (lines_of_file _ _ (availableData results)); [done|].
      apply (Hline _ false). unfold availableData.
      rewrite (sort_Permutation compareRows _).
      apply Forall_forall. intros r Hr. apply list_elem_of_filter in Hr as [_ Hr].
      rewrite Forall_forall in Hrows. by apply Hrows.
    + by rewrite length_map.
Qed.

End Csv.

(** The two files of the sample rows. *)
Lemma one_line_per_exported_row_witness :
  length (split "010" (@generateCSV Samples.byteOrder Samples.gathered)) = 7%nat
  /\ length (split "010" (@generateAvailableOnlyCSV Samples.byteOrder
                            Samples.gathered)) = 5%nat.
Proof.
  assert (Hrows : Forall oneLine (bul Samples.gathered ++ ma Samples.gathered
                                    ++ cho Samples.gathered)).
  { repeat constructor. }
  destruct (@one_line_per_exported_row Samples.byteOrder Samples.gathered Hrows)
    as [(l1 & -> & H1) (l2 & -> & H2)].
  simpl. rewrite H1, H2. split; reflexivity.
Defined.

(** The sample rows under the byte order. *)
Lemma available_view_is_the_full_view_filtered_witness :
  @availableData Samples.byteOrder Samples.gathered
  = filter (fun r => status (row r) = bookableText)
           (@allData Samples.byteOrder Samples.gathered).
Proof.
  exact (@available_view_is_the_full_view_filtered Samples.byteOrder
           byteOrder_total Samples.gathered).
Defined.

End ExportMoreFacts.

(** ** The embedded-markup normaliser *)

Module TennisParseMoreFacts.
Import JS JSFacts Tennis TennisParse TennisTotals TennisParseFacts.





(** A control yields no slot, and no error, in two cases only: its value
    is missing or holds no time, or it advertises 6 o'clock sharp. *)
Theorem skipped_controls (c : Checkbox) :
  slotOf c = None
  <-> matchTime (orString (attr_value c) "") = None
      \/ exists h, matchTime (orString (attr_value c) "") = Some (h, "00")
                   /\ parseInt h = Some 6.
Proof.
  destruct (matchTime (orString (attr_value c) "")) as [[h m]|] eqn:Hm.
  - pose proof (matchTime_groups _ _ _ Hm) as Hg.
    destruct (parseInt_hour h m Hg) as (v & Hv & _).
    rewrite (slotOf_matched c h m v Hm Hv).
    destruct (bool_decide (v = 6) && (m =? "00")%string) eqn:Hdrop.
    + apply andb_prop in Hdrop as [H6 H00].
      apply bool_decide_eq_true_1 in H6. apply String.eqb_eq in H00. subst.
      split; [|done]. intros _. right. eauto.
    + split; [done|]. intros [?|(h' & [= <- ->] & Hv')]; [done|].
      rewrite Hv in Hv'. injection Hv' as ->. done.
  - unfold slotOf. rewrite Hm. split; auto.
Qed.

(** *** Counts *)

Section Parser.
Context `{Cheerio} `{JsonParser}.

Lemma courtOf_counts i b c : courtOf i b = inr c -> countsItsSlots c.
Proof.
  unfold courtOf.
  destruct (getProp b "play_name"); [discriminate|].
  destruct (getProp b "play_code"); [discriminate|].
  destruct (getProp b "place_code"); [discriminate|].
  destruct (getProp b "event_code"); [discriminate|].
  destruct (getProp b "htmlx") as [|htmlx]; [discriminate|].
  match goal with
  | |- context [match ?x with inr _ => _ | inl _ => _ end] =>
      destruct x as [e|slots]; [discriminate|]
  end.
  intros [= <-]. unfold countsItsSlots. simpl.
  repeat split; try done.
  - apply length_filter.
  - intros Hpos. apply Nat.ltb_lt in Hpos.
    destruct (filter (fun s => TimeSlot.available s = true) slots) as [|s l] eqn:E;
      [simpl in Hpos; lia|].
    assert (Hs : s ∈ filter (fun s => TimeSlot.available s = true) slots)
      by (rewrite E; left).
    apply list_elem_of_filter in Hs. exists s. tauto.
  - intros (s & Hs & Ha). apply Nat.ltb_lt.
    assert (Hin : s ∈ filter (fun s => TimeSlot.available s = true) slots)
      by (by apply list_elem_of_filter).
    destruct (filter _ slots); [by apply elem_of_nil in Hin | simpl; lia].
Qed.

Lemma courtsFrom_counts blocks : forall i cs,
  courtsFrom i blocks = inr cs ->
  Forall countsItsSlots cs /\ length cs = length blocks.
Proof.
  induction blocks as [|b blocks IH]; intros i cs; simpl.
  - intros [= <-]. done.
  - destruct (courtOf i b) as [|c] eqn:Hc; [discriminate|].
    destruct (courtsFrom (S i) blocks) as [|cs'] eqn:Hcs; [discriminate|].
    intros [= <-]. destruct (IH _ _ Hcs) as [Hall Hlen].
    split; [|simpl; by rewrite Hlen].
    constructor; [by apply courtOf_counts in Hc | done].
Qed.

Lemma foldl_sum (cs : list CourtData.t) (a : nat) :
  foldl (fun sum c => (sum + CourtData.available_slots c)%nat) a cs
  = (a + sum_list (map CourtData.available_slots cs))%nat.
Proof.
  revert a. induction cs as [|c cs IH]; intros a; simpl; [lia|].
  rewrite IH. lia.
Qed.

(** The counts of a parsed result are those of its slot lists.  Each
    court counts its slots and its bookable slots, and says it has
    availability exactly when one of its slots is bookable; the day total
    is the sum over the courts; and the day has availability exactly when
    some court has. *)
Theorem counts_are_those_of_the_slots (dateStr : string) (data : json)
    (r : AvailabilityResult.t) :
  parseAvailabilityData dateStr data = inr r ->
  Forall countsItsSlots (AvailabilityResult.courts r)
  /\ AvailabilityResult.total_available_slots r
     = Some (sum_list (map CourtData.available_slots (AvailabilityResult.courts r)))
  /\ exists b, AvailabilityResult.has_availability r = Some b
               /\ (b = true <-> exists c, c ∈ AvailabilityResult.courts r
                                  /\ CourtData.has_availability c = true).
Proof.
  unfold parseAvailabilityData.
  destruct (getProp data "play_name") as [|play_name]; [discriminate|].
  destruct (playDataOf play_name) as [| | | |blocks|]; try discriminate.
  destruct (courtsFrom 0 blocks) as [|courts] eqn:Hcs; [discriminate|].
  intros [= <-]. simpl.
  destruct (courtsFrom_counts _ _ _ Hcs) as [Hall _].
  split; [exact Hall|]. rewrite foldl_sum. simpl. split; [done|].
  eexists. split; [reflexivity|].
  rewrite Nat.ltb_lt. clear Hcs. induction Hall as [|c cs Hc Hall IH]; simpl.
  - split; [lia|]. intros (c & Hc & _). by apply elem_of_nil in Hc.
  - destruct Hc as (_ & Ha & _ & Hhas).
    split.
    + intros Hpos.
      destruct (CourtData.has_availability c) eqn:Hb; [exists c; split; [left | done]|].
      assert (Hzero : CourtData.available_slots c = 0%nat).
      { rewrite Ha.
        destruct (filter _ (CourtData.time_slots c)) as [|s l] eqn:E; [done|].
        assert (Hs : s ∈ filter (fun s => TimeSlot.available s = true)
                                (CourtData.time_slots c)) by (rewrite E; left).
        apply list_elem_of_filter in Hs.
        assert (false = true) by (apply Hhas; exists s; tauto).
        discriminate. }
      destruct IH as [IH _]. destruct IH as (c' & Hc' & Hb'); [lia|].
      exists c'. split; [by right | done].
    + intros (c' & Hc' & Hb'). apply elem_of_cons in Hc' as [->|Hc'].
      * apply Hhas in Hb' as (s & Hs & Hav).
        assert (Hin : s ∈ filter (fun s => TimeSlot.available s = true)
                                 (CourtData.time_slots c))
          by (by apply list_elem_of_filter).
        rewrite Ha. destruct (filter _ (CourtData.time_slots c));
          [by apply elem_of_nil in Hin | simpl; lia].
      * destruct IH as [_ IH]. specialize (IH (ex_intro _ c' (conj Hc' Hb'))). lia.
Qed.

End Parser.

(** The response with one well-formed block. *)
Lemma counts_are_those_of_the_slots_witness :
  exists r,
    @parseAvailabilityData Samples.twoControls Samples.rejectAll "20251015"
      Samples.cleanResponse = inr r
    /\ AvailabilityResult.total_available_slots r = Some 1%nat
    /\ Forall countsItsSlots (AvailabilityResult.courts r).
Proof.
  eexists. split; [reflexivity|]. split; [reflexivity|].
  exact (proj1 (@counts_are_those_of_the_slots Samples.twoControls Samples.rejectAll
                  "20251015" Samples.cleanResponse _ eq_refl)).
Defined.

End TennisParseMoreFacts.

(** ** One availability query, and the dates of a month *)

Module TennisCallMoreFacts.
Import JS JSFacts Tennis TennisTotals.

Section Call.
Context {W : Type} `{Portal W} `{Cheerio} `{JsonParser} `{Calendar}.

(** Where a query fails decides what was asked of the portal.  If the
    index page fails, the list request is never sent; if the list request
    fails, both were sent; in both cases the message of the failure is
    the error of the result.  A text answer that does not parse gives the
    parser's message.  An answer that is not text is normalised as it is,
    without the parser. *)
Theorem query_failure_stages (dateStr : string) (st : Crawler W) :
  (forall e w,
      get_index (world st) = (inl e, w) ->
      checkAvailability dateStr st
      = (inr (errorResult dateStr e),
         mkCrawler w (circuitBreaker st) (trace st ++ [EvGetIndex])))
  /\ (forall u w1 e w2,
      get_index (world st) = (inr u, w1) ->
      post_list dateStr w1 = (inl e, w2) ->
      checkAvailability dateStr st
      = (inr (errorResult dateStr e),
         mkCrawler w2 (circuitBreaker st)
                   ((trace st ++ [EvGetIndex]) ++ [EvPostAjax dateStr])))
  /\ (forall u w1 s w2 e,
      get_index (world st) = (inr u, w1) ->
      post_list dateStr w1 = (inr (JString s), w2) ->
      JSON_parse (stripBOM s) = inl e ->
      checkAvailability dateStr st
      = (inr (errorResult dateStr e),
         mkCrawler w2 (circuitBreaker st)
                   ((trace st ++ [EvGetIndex]) ++ [EvPostAjax dateStr])))
  /\ (forall u w1 data w2,
      get_index (world st) = (inr u, w1) ->
      post_list dateStr w1 = (inr data, w2) ->
      (forall s, data <> JString s) ->
      checkAvailability dateStr st
      = (inr (match parseAvailabilityData dateStr data with
              | inr r => r
              | inl e => errorResult dateStr e
              end),
         mkCrawler w2 (circuitBreaker st)
                   ((trace st ++ [EvGetIndex]) ++ [EvPostAjax dateStr]))).
Proof.
  unfold checkAvailability, try_catch, bind, emit, request, lift, ret. simpl.
  repeat apply conj.
  - intros e w ->. done.
  - intros u w1 e w2 ->. simpl. intros ->. done.
  - intros u w1 s w2 e ->. simpl. intros ->. simpl. intros ->. done.
  - intros u w1 data w2 ->. simpl. intros -> Hdata. simpl.
    destruct data as [| | |s| |]; try (by destruct (parseAvailabilityData _ _)).
    by destruct (Hdata s).
Qed.

(** The dates of a month are as many as the calendar gives the month
    days, they are pairwise different, and each is the year, the padded
    month and a padded day. *)
Theorem month_dates_are_distinct (year month : Z) :
  length (getMonthDates year month)
  = Z.to_nat (getDate (newDate year month 0))
  /\ NoDup (getMonthDates year month)
  /\ forall i : nat,
       (i < length (getMonthDates year month))%nat ->
       getMonthDates year month !! i
       = Some (toString year +:+ pad2 month +:+ pad2 (Z.of_nat i + 1)).
Proof.
  unfold getMonthDates. rewrite length_map, length_seqZ.
  split; [done|]. split.
  - apply (NoDup_fmap_2_strong _ (seqZ 1 (getDate (newDate year month 0))));
      [|apply NoDup_seqZ].
    intros x y _ _ E.
    apply String.app_inj in E. apply String.app_inj in E.
    by apply pad2_inj.
  - intros i Hi.
    change (map ?f ?l !! i) with ((f <$> l) !! i).
    rewrite list_lookup_fmap, lookup_seqZ_lt by lia.
    simpl. by replace (1 + Z.of_nat i) with (Z.of_nat i + 1) by lia.
Qed.

End Call.

(** A query against a portal whose index page is down. *)
Lemma query_failure_stages_witness :
  @checkAvailability unit Samples.tennisDown Samples.twoControls Samples.rejectAll
    "20251015" (newCrawler tt)
  = (inr (errorResult "20251015" "timeout of 10000ms exceeded"),
     mkCrawler tt (Breaker.new 5 600) [EvGetIndex]).
Proof.
  exact (proj1 (@query_failure_stages unit Samples.tennisDown Samples.twoControls
                  Samples.rejectAll "20251015" (newCrawler tt)) _ _ eq_refl).
Defined.

(** *** The byte order mark *)

Section Mark.
Context {W : Type} (P : Portal W) `{Cheerio} `{JsonParser}.

(** A byte order mark in front of the answers changes nothing: against a
    portal whose text answers carry none, a query gives the same result
    and leaves the same state as against the portal that puts one in
    front of each. *)
Theorem byte_order_mark_is_ignored (dateStr : string) (st : Crawler W) :
  (forall d w s w', @post_list W P d w = (inr (JString s), w') -> stripBOM s = s) ->
  @checkAvailability W (MoreSamples.withMark P) _ _ dateStr st
  = @checkAvailability W P _ _ dateStr st.
Proof.
  intros Hplain.
  unfold checkAvailability, try_catch, bind, emit, request, lift, ret. simpl.
  destruct (@get_index W P (world st)) as [[e|u] w1]; simpl; [done|].
  destruct (@post_list W P dateStr w1) as [[e|data] w2] eqn:Hpost; simpl; [done|].
  destruct data as [| | |s| |]; simpl; try done.
  by rewrite (Hplain _ _ _ _ Hpost).
Qed.

End Mark.

(** A portal that answers with the text of the empty object. *)
Lemma byte_order_mark_is_ignored_witness :
  @checkAvailability unit
     (MoreSamples.withMark (Samples.answering (JString "{}")))
     Samples.twoControls MoreSamples.emptyObjectOnly "20251015" (newCrawler tt)
  = @checkAvailability unit (Samples.answering (JString "{}"))
     Samples.twoControls MoreSamples.emptyObjectOnly "20251015" (newCrawler tt).
Proof.
  apply (@byte_order_mark_is_ignored unit (Samples.answering (JString "{}"))
           Samples.twoControls MoreSamples.emptyObjectOnly "20251015" (newCrawler tt)).
  intros d w s w' E. simpl in E. injection E as <- _. reflexivity.
Defined.

End TennisCallMoreFacts.

(** ** The program around the tabular crawler *)

Module NowonProgramFacts.
Import JS Nowon NowonStats NowonProgram.

Lemma includes_cons needle a s :
  includes needle (String a s) = String.prefix needle (String a s) || includes needle s.
Proof. reflexivity. Qed.

Lemma prefix_append needle suf : String.prefix needle (needle +:+ suf) = true.
Proof.
  induction needle as [|a needle IH]; simpl; [by destruct suf|].
  destruct (ascii_dec a a); [exact IH | done].
Qed.

Lemma includes_append needle pre suf :
  includes needle (pre +:+ needle +:+ suf) = true.
Proof.
  induction pre as [|a pre IH].
  - change (EmptyString +:+ needle +:+ suf) with (needle +:+ suf).
    destruct (needle +:+ suf) as [|a s] eqn:E.
    + destruct needle; [reflexivity | discriminate].
    + rewrite includes_cons, <- E, prefix_append. reflexivity.
  - change (String a pre +:+ needle +:+ suf) with (String a (pre +:+ needle +:+ suf)).
    rewrite includes_cons, IH. apply orb_true_r.
Qed.

(** Every write the goal still waits for went through. *)
Ltac take_writes Hwrite :=
  repeat match goal with
         | |- context [writeFileSync ?a ?b ?c] =>
             let Hw := fresh "Hw" in
             pose proof (Hwrite a b c) as Hw;
             destruct (writeFileSync a b c) as [[?|[]] ?]; simpl in Hw;
             [discriminate|]; clear Hw; simpl
         end.

Section Program.
Context {W : Type} `{Portal W} `{Calendar} `{Collation} `{Site W}.

(** What [login] returns, read off the answer. *)
Lemma nowon_login_spec (u p : string) (s : Program W) :
  login u p s
  = (inr match (loginAction u p (world (run s))).1 with
         | inr reply =>
             match refused (data reply) with
             | inr false => (status reply =? 200) || (status reply =? 302)
             | _ => false
             end
         | inl _ => false
         end,
     mkProgram (mkRun (loginAction u p (world (run s))).2 (trace (run s)))
               (notes s ++ [NoteLogin u])).
Proof.
  unfold login, try_catch, bind, noteDown, site, ret. simpl.
  destruct (loginAction u p (world (run s))) as [[e|reply] w]; simpl; [done|].
  destruct (refused (data reply)) as [e|[|]]; simpl; [done | done |].
  by destruct ((status reply =? 200) || (status reply =? 302)).
Qed.

(** [login] never throws and sends the one login request.  It accepts
    only an answer with status 200 or 302 that does not say the login was
    refused; and a text answer that holds [fail] anywhere is refused
    whatever its status, as is the answer [null]. *)
Theorem login_accepts_unrefused_answers_only (u p : string) (s : Program W) :
  exists b s',
    login u p s = (inr b, s')
    /\ notes s' = notes s ++ [NoteLogin u]
    /\ trace (run s') = trace (run s)
    /\ (b = true <->
        exists reply, (loginAction u p (world (run s))).1 = inr reply
                      /\ (status reply = 200 \/ status reply = 302)
                      /\ refused (data reply) = inr false)
    /\ (forall reply pre suf,
          (loginAction u p (world (run s))).1 = inr reply ->
          data reply = Tennis.JString (pre +:+ "fail" +:+ suf) \/ data reply = Tennis.JNull ->
          b = false).
Proof.
  eexists _, _. split; [apply nowon_login_spec|]. simpl.
  split; [done|]. split; [done|]. split.
  - split.
    + destruct (loginAction u p (world (run s))).1 as [e|reply]; [done|].
      destruct (refused (data reply)) as [e|[|]] eqn:Hr; try done.
      intros Hs. exists reply. split; [done|]. split; [|done].
      apply orb_prop in Hs as [Hs|Hs]; apply Z.eqb_eq in Hs; auto.
    + intros (reply & -> & Hs & ->).
      destruct Hs as [-> | ->]; reflexivity.
  - intros reply pre suf -> [Hd | Hd]; rewrite Hd; simpl; [|done].
    by rewrite (includes_append "fail" pre suf), orb_true_r.
Qed.

(** After a refused login the program ends at once: it returns, having
    sent no schedule request and written no file. *)
Theorem refused_login_ends_the_program (u p : string) (s : Program W) :
  (login u p s).1 = inr false ->
  exists s', main u p s = (inr tt, s')
             /\ trace (run s') = trace (run s)
             /\ notes s' = notes s ++ [NoteLogin u].
Proof.
  intros Hlogin. unfold main, bind.
  destruct (login u p s) as [r s1] eqn:E. simpl in Hlogin. subst r. simpl.
  rewrite nowon_login_spec in E. injection E as _ <-.
  eexists. split; [reflexivity|]. done.
Qed.

(** The query for the test date is not guarded.  When its schedule
    request fails after an accepted login, the program throws the error
    of the request: the month is not crawled, and no file is written. *)
Theorem failed_test_query_aborts_the_program (u p e : string) (s : Program W) (w : W) :
  (login u p s).1 = inr true ->
  reserve_time_pick "2025-10-15" 15 (loginAction u p (world (run s))).2 = (inl e, w) ->
  main u p s
  = (inl e, mkProgram (mkRun w (trace (run s) ++ [EvTimeList "2025-10-15" 15]))
                      (notes s ++ [NoteLogin u])).
Proof.
  intros Hlogin Hquery. unfold main, bind at 1.
  rewrite nowon_login_spec in Hlogin |- *. simpl in Hlogin.
  injection Hlogin as ->. simpl.
  unfold bind, onRun, crawlAvailableTimes, getTimeList, bind, emit, request. simpl.
  by rewrite Hquery.
Qed.

(** When the login is accepted, the test query returns and the disk
    takes every write, the program returns, and what it writes is the
    result of the month crawl alone: the results, the full table and the
    table of bookable rows, in this order, followed by the statistics. *)
Theorem program_saves_the_month_crawl (u p : string) (s : Program W)
    (rows : list CrawlRow) (st1 : RunState W) :
  (login u p s).1 = inr true ->
  crawlAvailableTimes "2025-10-15" 15 (run (login u p s).2) = (inr rows, st1) ->
  (forall path w, (mkdirSync path w).1 = inr tt) ->
  (forall path c w, (writeFileSync path c w).1 = inr tt) ->
  exists results st2 s',
    crawlMonth 2025 10 (1 # 2) st1 = (inr results, st2)
    /\ main u p s = (inr tt, s')
    /\ trace (run s') = trace st2
    /\ notes s'
       = notes s ++ [NoteLogin u]
           ++ (if existsSync "./output" (world st2) then [] else [NoteMkdir "./output"])
           ++ [NoteWrite "./output/nowon_results.json" (Json results);
               NoteWrite "./output/nowon_all.csv" (Text (generateCSV results));
               NoteWrite "./output/nowon_available.csv"
                         (Text (generateAvailableOnlyCSV results));
               NoteStats (totalSlots results) (availableSlots results)
                         (unavailableSlots results)].
Proof.
  intros Hlogin Hquery Hmkdir Hwrite.
  destruct (NowonRunFacts.nowon_crawlMonth_spec 2025 10 (1 # 2) st1)
    as (results & st2 & evs & Hmonth & _).
  cut (exists s',
         main u p s = (inr tt, s')
         /\ trace (run s') = trace st2
         /\ notes s'
            = notes s ++ [NoteLogin u]
                ++ (if existsSync "./output" (world st2) then []
                    else [NoteMkdir "./output"])
                ++ [NoteWrite "./output/nowon_results.json" (Json results);
                    NoteWrite "./output/nowon_all.csv" (Text (generateCSV results));
                    NoteWrite "./output/nowon_available.csv"
                              (Text (generateAvailableOnlyCSV results));
                    NoteStats (totalSlots results) (availableSlots results)
                              (unavailableSlots results)]).
  { intros (s' & Hmain & Htrace & Hnotes). exists results, st2, s'. auto. }
  assert (Hnotes : notes (login u p s).2 = notes s ++ [NoteLogin u])
    by (by rewrite nowon_login_spec).
  unfold main, bind.
  destruct (login u p s) as [r s1]. simpl in Hlogin, Hquery, Hnotes. subst r. simpl.
  unfold onRun. rewrite Hquery. simpl. rewrite Hmonth.
  unfold saveResults, write, bind, site, noteDown, ret. simpl.
  destruct (existsSync "./output" (world st2)); simpl.
  - take_writes Hwrite.
    eexists. split; [reflexivity|]. simpl. split; [done|].
    rewrite Hnotes, <- !app_assoc. reflexivity.
  - pose proof (Hmkdir "./output" (world st2)) as Hm.
    destruct (mkdirSync "./output" (world st2)) as [[?|[]] ?]; simpl in Hm; [discriminate|].
    simpl. take_writes Hwrite.
    eexists. split; [reflexivity|]. simpl. split; [done|].
    rewrite Hnotes, <- !app_assoc. reflexivity.
Qed.

End Program.

End NowonProgramFacts.

Module NowonProgramExamples.
Import JS Nowon NowonStats NowonProgram NowonProgramFacts.

(** A login answered with the text of a refusal. *)
Lemma refused_login_ends_the_program_witness :
  exists s',
    @main unit Samples.nowonUp Samples.utcCalendar Samples.byteOrder
      (MoreSamples.nowonSite (Tennis.JString "로그인 실패") 200)
      "user" "secret" (mkProgram (mkRun tt []) [])
    = (inr tt, s')
    /\ trace (run s') = []
    /\ notes s' = [NoteLogin "user"].
Proof.
  apply (@refused_login_ends_the_program unit Samples.nowonUp Samples.utcCalendar
           Samples.byteOrder (MoreSamples.nowonSite (Tennis.JString "로그인 실패") 200)
           "user" "secret" (mkProgram (mkRun tt []) [])).
  reflexivity.
Defined.

(** An accepted login against a portal that is down. *)
Lemma failed_test_query_aborts_the_program_witness :
  @main unit Samples.nowonDown Samples.utcCalendar Samples.byteOrder
    (MoreSamples.nowonSite (Tennis.JString "ok") 200)
    "user" "secret" (mkProgram (mkRun tt []) [])
  = (inl "timeout of 10000ms exceeded",
     mkProgram (mkRun tt [EvTimeList "2025-10-15" 15]) [NoteLogin "user"]).
Proof.
  apply (@failed_test_query_aborts_the_program unit Samples.nowonDown
           Samples.utcCalendar Samples.byteOrder
           (MoreSamples.nowonSite (Tennis.JString "ok") 200)
           "user" "secret" "timeout of 10000ms exceeded"
           (mkProgram (mkRun tt []) []) tt); reflexivity.
Defined.

(** An accepted login against a portal that answers. *)
Lemma program_saves_the_month_crawl_witness :
  exists results s',
    @main unit Samples.nowonUp Samples.utcCalendar Samples.byteOrder
      (MoreSamples.nowonSite (Tennis.JString "ok") 200)
      "user" "secret" (mkProgram (mkRun tt []) [])
    = (inr tt, s')
    /\ last (notes s')
       = Some (NoteStats (totalSlots results) (availableSlots results)
                         (unavailableSlots results)).
Proof.
  destruct (@program_saves_the_month_crawl unit Samples.nowonUp Samples.utcCalendar
              Samples.byteOrder (MoreSamples.nowonSite (Tennis.JString "ok") 200)
              "user" "secret" (mkProgram (mkRun tt []) [])
              _ _ eq_refl eq_refl (fun _ _ => eq_refl) (fun _ _ _ => eq_refl))
    as (results & st2 & s' & _ & Hmain & _ & Hnotes).
  exists results, s'. split; [exact Hmain|].
  rewrite Hnotes. reflexivity.
Defined.

End NowonProgramExamples.

(** ** The program around the embedded-markup crawler *)

Module TennisProgramFacts.
Import JS Tennis TennisRun TennisProgram.

Section Program.
Context {W : Type} `{Portal W} `{Cheerio} `{JsonParser} `{Calendar} `{Site W}.

(** [login], request by request. *)
Lemma tennis_login_spec (u p : string) (s : Program W) :
  login u p s
  = let cb := circuitBreaker (crawler s) in
    let tr := trace (crawler s) in
    match get_login (world (crawler s)) with
    | (inl _, w1) =>
        (inr false,
         mkProgram (mkCrawler w1 cb tr) (loggedIn s) (notes s ++ [NoteGetLogin]))
    | (inr _, w1) =>
        match post_login u p w1 with
        | (inl _, w2) =>
            (inr false,
             mkProgram (mkCrawler w2 cb tr) (loggedIn s)
                       (notes s ++ [NoteGetLogin; NotePostLogin u]))
        | (inr _, w2) =>
            match get_index w2 with
            | (inl _, w3) =>
                (inr false,
                 mkProgram (mkCrawler w3 cb (tr ++ [EvGetIndex])) (loggedIn s)
                           (notes s ++ [NoteGetLogin; NotePostLogin u]))
            | (inr _, w3) =>
                (inr true,
                 mkProgram (mkCrawler w3 cb (tr ++ [EvGetIndex])) true
                           (notes s ++ [NoteGetLogin; NotePostLogin u]))
            end
        end
    end.
Proof.
  unfold login, try_catch, bind, noteDown, site, onCrawler, request, emit, ret. simpl.
  destruct (get_login (world (crawler s))) as [[e|u1] w1]; simpl; [done|].
  destruct (post_login u p w1) as [[e|u2] w2]; simpl; rewrite <- app_assoc; [done|].
  destruct (get_index w2) as [[e|u3] w3]; simpl; done.
Qed.


(** After a failed sign-on the program ends at once: it returns without
    a single availability query and without writing a file. *)
Theorem failed_sign_on_ends_the_program (u p : string) (s : Program W) :
  (login u p s).1 = inr false ->
  exists s' evs ns,
    main u p s = (inr tt, s')
    /\ trace (crawler s') = trace (crawler s) ++ evs
    /\ (evs = [] \/ evs = [EvGetIndex])
    /\ notes s' = notes s ++ NoteGetLogin :: ns
    /\ (ns = [] \/ ns = [NotePostLogin u]).
Proof.
  intros Hlogin. unfold main, bind.
  rewrite tennis_login_spec in Hlogin |- *. simpl in Hlogin |- *.
  destruct (get_login (world (crawler s))) as [[e|u1] w1].
  { simpl. eexists _, [], []. rewrite app_nil_r. repeat split; auto. }
  destruct (post_login u p w1) as [[e|u2] w2].
  { simpl. eexists _, [], [NotePostLogin u]. rewrite app_nil_r. repeat split; auto. }
  destruct (get_index w2) as [[e|u3] w3]; [|discriminate].
  simpl. eexists _, [EvGetIndex], [NotePostLogin u]. repeat split; auto.
Qed.


End Program.

(** A sign-on page that is down. *)
Lemma failed_sign_on_ends_the_program_witness :
  exists s',
    @main unit (Samples.answering Samples.cleanResponse) Samples.twoControls
      Samples.rejectAll Samples.utcCalendar MoreSamples.tennisSiteDown
      "user" "secret" (mkProgram (newCrawler tt) false [])
    = (inr tt, s')
    /\ trace (crawler s') = []
    /\ notes s' = [NoteGetLogin].
Proof.
  destruct (@failed_sign_on_ends_the_program unit
              (Samples.answering Samples.cleanResponse) Samples.twoControls
              Samples.rejectAll Samples.utcCalendar MoreSamples.tennisSiteDown
              "user" "secret" (mkProgram (newCrawler tt) false []) eq_refl)
    as (s' & evs & ns & Hmain & _).
  exists s'. split; [exact Hmain|].
  injection Hmain as <-. split; reflexivity.
Defined.


End TennisProgramFacts.
